(** * Lennard-Jones cutoff analysis

    A shallow embedding of [Analysis_of_Cutoff_Points.py] and the properties
    its specification states about it.

    Numbers.  A Python [float] is modelled by [pyfloat]: a finite value is a
    real number, next to the three special values [inf], [-inf] and [nan]
    with the arithmetic Python gives them.  The binary64 range is part of
    the model: a product or quotient too large for a double becomes an
    infinity, one too small becomes zero, and [**] raises [OverflowError]
    where its result is too large.  Within the range arithmetic is exact:
    the rounding of binary64 to 53 bits is not modelled.

    Effects.  A Python function is a computation in the monad [Py]: it reads
    and extends the text written to standard output and either returns a
    value or raises.  Calls into matplotlib are left out; the series handed
    to them are still computed, in program order, because evaluating them
    could raise before anything is printed. *)

From Stdlib Require Import Reals Lra Psatz List String Bool Arith ZArith.
Import ListNotations.
Open Scope R_scope.

(** ** Python floats *)

Module PyFloat.

Inductive pyfloat : Type :=
| Fin (x : R)
| PosInf
| NegInf
| NaN.

(** From this magnitude on a result rounds to an infinity: the largest
    double is [2^1024 - 2^971] and half a step above it lies
    [2^1024 - 2^970]. *)
Definition overflow_bound : R := IZR (2 ^ 1024 - 2 ^ 970).

(** Up to this magnitude a result rounds to zero: half of the smallest
    positive double [2^-1074]. *)
Definition underflow_bound : R := / IZR (2 ^ 1075).

(** Underflow: a result too small for a double is zero. *)
Definition flush (x : R) : R :=
  if Rle_dec (Rabs x) underflow_bound then 0 else x.

(** Overflow: a result too large for a double is an infinity. *)
Definition saturate (x : R) : pyfloat :=
  if Rle_dec overflow_bound x then PosInf
  else if Rle_dec x (- overflow_bound) then NegInf
  else Fin x.

(** The result of a product or a quotient, brought into the range. *)
Definition round_to_range (x : R) : pyfloat := saturate (flush x).

Definition fneg (a : pyfloat) : pyfloat :=
  match a with
  | Fin x => Fin (- x)
  | PosInf => NegInf
  | NegInf => PosInf
  | NaN => NaN
  end.

Definition fabs (a : pyfloat) : pyfloat :=
  match a with
  | Fin x => Fin (Rabs x)
  | PosInf | NegInf => PosInf
  | NaN => NaN
  end.

(** An infinity [i] multiplied (or divided) by the finite number [x]:
    the sign of [x] decides, and [0 * inf] is [nan]. *)
Definition inf_times (x : R) (i : pyfloat) : pyfloat :=
  if Rlt_dec 0 x then i
  else if Rlt_dec x 0 then fneg i
  else NaN.

Definition fmul (a b : pyfloat) : pyfloat :=
  match a, b with
  | NaN, _ | _, NaN => NaN
  | Fin x, Fin y => round_to_range (x * y)
  | Fin x, i => inf_times x i
  | i, Fin y => inf_times y i
  | PosInf, PosInf | NegInf, NegInf => PosInf
  | PosInf, NegInf | NegInf, PosInf => NegInf
  end.

(** A difference of two doubles can overflow but never underflows. *)
Definition fsub (a b : pyfloat) : pyfloat :=
  match a, b with
  | NaN, _ | _, NaN => NaN
  | Fin x, Fin y => saturate (x - y)
  | PosInf, PosInf | NegInf, NegInf => NaN
  | PosInf, _ => PosInf
  | NegInf, _ => NegInf
  | Fin _, PosInf => NegInf
  | Fin _, NegInf => PosInf
  end.

(** [a < b]; every comparison with [nan] is false. *)
Definition flt (a b : pyfloat) : bool :=
  match a, b with
  | NaN, _ | _, NaN => false
  | Fin x, Fin y => if Rlt_dec x y then true else false
  | NegInf, NegInf => false
  | NegInf, _ => true
  | _, NegInf => false
  | PosInf, _ => false
  | Fin _, PosInf => true
  end.

(** [a > b] *)
Definition fgt (a b : pyfloat) : bool := flt b a.

(** [b == 0.0], the test Python's division makes before dividing. *)
Definition is_zero (b : pyfloat) : bool :=
  match b with
  | Fin y => if Req_dec_T y 0 then true else false
  | _ => false
  end.

(** The quotient [a / b] for a divisor that is not zero. *)
Definition quotient (a b : pyfloat) : pyfloat :=
  match a, b with
  | NaN, _ | _, NaN => NaN
  | Fin x, Fin y => round_to_range (x / y)
  | Fin _, _ => Fin 0
  | i, Fin y => inf_times y i
  | _, _ => NaN
  end.

(** [a >= b] as Python evaluates it on floats. *)
Definition fge (a b : pyfloat) : bool :=
  match a, b with
  | NaN, _ | _, NaN => false
  | Fin x, Fin y => if Rle_dec y x then true else false
  | PosInf, _ => true
  | _, NegInf => true
  | _, _ => false
  end.

End PyFloat.
Export PyFloat.

(** ** Standard output and the monad of Python computations *)

(** One call of [print].  A literal string is kept as it is; a line built
    by an f-string keeps the values that are formatted into it, not their
    decimal rendering. *)
Inductive line : Type :=
| Text (s : string)
| Header (columns : list string)
| TableRow (label : string) (potential percentage : pyfloat)
           (significance : string)
| ImpactLine (label : string) (neighbors relative_cost : pyfloat).

Definition stdout : Type := list line.

Inductive exn : Type :=
| ZeroDivisionError
| OverflowError.

Inductive outcome (A : Type) : Type :=
| Return (a : A)
| Raise (e : exn).
Arguments Return {A} a.
Arguments Raise {A} e.

Definition Py (A : Type) : Type := stdout -> outcome A * stdout.

Definition ret {A : Type} (a : A) : Py A :=
  fun out => (Return a, out).

Definition raise {A : Type} (e : exn) : Py A :=
  fun out => (Raise e, out).

Definition bind {A B : Type} (m : Py A) (k : A -> Py B) : Py B :=
  fun out =>
    match m out with
    | (Return a, out') => k a out'
    | (Raise e, out') => (Raise e, out')
    end.

Declare Scope py_scope.
Delimit Scope py_scope with py.
Notation "x <- m ;; k" := (bind m (fun x => k))
  (at level 61, m at next level, right associativity) : py_scope.
Notation "m ;; k" := (bind m (fun _ => k))
  (at level 61, right associativity) : py_scope.
Open Scope py_scope.

Definition print (l : line) : Py unit :=
  fun out => (Return tt, out ++ [l]).

(** [a / b] raises [ZeroDivisionError] when [b == 0.0]. *)
Definition fdiv (a b : pyfloat) : Py pyfloat :=
  if is_zero b then raise ZeroDivisionError else ret (quotient a b).

(** [a ** n] for a literal exponent [n] that is a natural number: a
    finite base whose power is too large for a double raises
    [OverflowError], one whose power is too small gives zero. *)
Definition fpow (a : pyfloat) (n : nat) : Py pyfloat :=
  match n with
  | O => ret (Fin 1)
  | S _ =>
      match a with
      | Fin x =>
          if Rle_dec overflow_bound (Rabs (x ^ n))
          then raise OverflowError
          else ret (Fin (flush (x ^ n)))
      | PosInf => ret PosInf
      | NegInf => ret (if Nat.even n then PosInf else NegInf)
      | NaN => ret NaN
      end
  end.

(** A list comprehension [[f x for x in xs]]. *)
Fixpoint comprehension {A B : Type} (f : A -> Py B) (xs : list A)
  : Py (list B) :=
  match xs with
  | [] => ret []
  | x :: xs' =>
      y <- f x ;;
      ys <- comprehension f xs' ;;
      ret (y :: ys)
  end.

(** A loop [for x in xs: body]. *)
Fixpoint for_each {A : Type} (xs : list A) (body : A -> Py unit) : Py unit :=
  match xs with
  | [] => ret tt
  | x :: xs' => body x ;; for_each xs' body
  end.

(** [s * n] on strings. *)
Fixpoint str_mul (s : string) (n : nat) : string :=
  match n with
  | O => EmptyString
  | S n' => (s ++ str_mul s n')%string
  end.

(** [np.linspace(start, stop, num)]: [num] evenly spaced samples, the
    first one [start] and, from two samples on, the last one [stop].  The
    samples are numpy floats, which differ from Python floats in dividing
    by zero and in overflowing without raising; no sample of this program
    is zero or large enough to overflow. *)
Definition linspace (start stop : R) (num : nat) : list pyfloat :=
  map (fun i => Fin (start + INR i * ((stop - start) / INR (num - 1))))
      (seq 0 num).

(** ** The program *)

(** [lennard_jones(r, epsilon=1.0, sigma=1.0)] *)
Definition lennard_jones (r epsilon sigma : pyfloat) : Py pyfloat :=
  if flt r (Fin 0.01) then ret PosInf
  else
    q <- fdiv sigma r ;;
    sr6 <- fpow q 6 ;;
    let scale := fmul (Fin 4) epsilon in
    sr12 <- fpow sr6 2 ;;
    ret (fmul scale (fsub sr12 sr6)).

(** The call [lennard_jones(r)] with both defaults. *)
Definition lennard_jones_default (r : pyfloat) : Py pyfloat :=
  lennard_jones r (Fin 1.0) (Fin 1.0).

(** [abs(potential / epsilon) * 100], the percentage of the well depth
    (lines 81 and 117). *)
Definition percentage_of (potential epsilon : pyfloat) : Py pyfloat :=
  q <- fdiv potential epsilon ;;
  ret (fmul (fabs q) (Fin 100)).

(** The [if]/[elif] chain of lines 119 to 126. *)
Definition significance (percentage : pyfloat) : string :=
  if fgt percentage (Fin 5.0) then "High"
  else if fgt percentage (Fin 2.0) then "Significant"
  else if fgt percentage (Fin 1.0) then "Moderate"
  else "Negligible".

(** [(cutoff/2.0)**3], the cost relative to a cutoff of 2.0 (line 139). *)
Definition relative_cost (cutoff : pyfloat) : Py pyfloat :=
  q <- fdiv cutoff (Fin 2.0) ;;
  fpow q 3.

(** [(r/2.5)**3], the cost relative to a cutoff of 2.5 (line 156). *)
Definition scaling_cost (r : pyfloat) : Py pyfloat :=
  q <- fdiv r (Fin 2.5) ;;
  fpow q 3.

Definition cutoffs : list pyfloat := [Fin 2.000; Fin 2.5; Fin 3.0].
Definition cutoff_labels : list string := ["2.0σ"; "2.5σ"; "3.0σ"]%string.
Definition colors : list string := ["red"; "blue"; "green"]%string.
Definition density : pyfloat := Fin 0.8.

(** [zip] of three and of two lists. *)
Definition zip3 {A B C : Type} (xs : list A) (ys : list B) (zs : list C)
  : list (A * B * C) :=
  combine (combine xs ys) zs.

(** Body of the two loops that mark the cutoffs in the plots (lines 39 to
    42 and 60 to 63): the potential at the cutoff is evaluated and plotted. *)
Definition mark_cutoff (epsilon sigma : pyfloat)
  (item : pyfloat * string * string) : Py unit :=
  let '(cutoff, label, color) := item in
  potential_at_cutoff <- lennard_jones cutoff epsilon sigma ;;
  ret tt.

(** Body of the loop that fills [comparison_data] (lines 79 to 82). *)
Definition comparison_entry (epsilon sigma cutoff : pyfloat)
  : Py (pyfloat * pyfloat * pyfloat) :=
  potential <- lennard_jones cutoff epsilon sigma ;;
  percentage <- percentage_of potential epsilon ;;
  ret (cutoff, potential, percentage).

(** Body of the loop that prints the table (lines 115 to 128). *)
Definition report_row (epsilon sigma : pyfloat)
  (item : pyfloat * string * string) : Py unit :=
  let '(cutoff, label, color) := item in
  potential <- lennard_jones cutoff epsilon sigma ;;
  percentage <- percentage_of potential epsilon ;;
  print (TableRow label potential percentage (significance percentage)).

(** Body of the loop that prints the computational impact (lines 135 to
    141). *)
Definition impact_row (item : pyfloat * string) : Py unit :=
  let '(cutoff, label) := item in
  q <- fdiv (Fin 4) (Fin 3) ;;
  let sphere := fmul q (Fin PI) in
  cube <- fpow cutoff 3 ;;
  let volume := fmul sphere cube in
  let neighbors := fmul volume density in
  cost <- relative_cost cutoff ;;
  print (ImpactLine label neighbors cost).

Definition analyze_cutoff_comparison : Py unit :=
  let epsilon := Fin 1.0 in
  let sigma := Fin 1.0 in
  let r_values := linspace 0.9 4.0 1000 in
  potential_values <-
    comprehension (fun r => lennard_jones r epsilon sigma) r_values ;;
  for_each (zip3 cutoffs cutoff_labels colors) (mark_cutoff epsilon sigma) ;;
  let tail_r := linspace 2.0 4.0 500 in
  tail_potential <-
    comprehension (fun r => lennard_jones r epsilon sigma) tail_r ;;
  for_each (zip3 cutoffs cutoff_labels colors) (mark_cutoff epsilon sigma) ;;
  comparison_data <- comprehension (comparison_entry epsilon sigma) cutoffs ;;
  print (Text (str_mul "=" 60)) ;;
  print (Text "LENNARD-JONES POTENTIAL CUTOFF ANALYSIS") ;;
  print (Text (str_mul "=" 60)) ;;
  print (Header ["Cutoff"; "Potential"; "% of ε"; "Significance"]%string) ;;
  print (Text (str_mul "-" 60)) ;;
  for_each (zip3 cutoffs cutoff_labels colors) (report_row epsilon sigma) ;;
  print (Text "
COMPUTATIONAL IMPACT:") ;;
  print (Text (str_mul "-" 30)) ;;
  for_each (combine cutoffs cutoff_labels) impact_row ;;
  print (Text "
RECOMMENDATION:") ;;
  print (Text (str_mul "-" 15)) ;;
  print (Text "• 2.0σ:   Very efficient, potential = -0.0615ε (6.15%)") ;;
  print (Text "• 2.5σ:   Standard choice, potential = -0.0163ε (1.63%)") ;;
  print (Text "• 3.0σ:   High accuracy, potential = -0.0067ε (0.67%)") ;;
  print (Text "
2.0σ cutoff sacrifices some accuracy for maximum speed.") ;;
  print (Text "2.5σ remains the best balance for most applications.").

(** [computational_scaling_demo()]; the value returned here is the pair of
    series the two panels plot against the cutoffs. *)
Definition computational_scaling_demo : Py (list pyfloat * list pyfloat) :=
  let cutoffs := linspace 1.8 4.0 50 in
  potentials <-
    comprehension (fun r => v <- lennard_jones_default r ;; ret (fabs v))
                  cutoffs ;;
  computational_costs <- comprehension scaling_cost cutoffs ;;
  ret (potentials, computational_costs).

(** The script run as a program (lines 186 to 191). *)
Definition main : Py unit :=
  print (Text "Analyzing Lennard-Jones potential cutoff comparison...") ;;
  analyze_cutoff_comparison ;;
  print (Text (String (Ascii.ascii_of_nat 10) (str_mul "=" 60))) ;;
  print (Text "Computational scaling demonstration...") ;;
  _ <- computational_scaling_demo ;;
  ret tt.

(** ** Vocabulary of the properties *)

(** The Lennard-Jones formula over the reals, as the specification writes
    it: 4 epsilon ((sigma/r)^12 - (sigma/r)^6). *)
Definition lj_formula (r epsilon sigma : R) : R :=
  4 * epsilon * ((sigma / r) ^ 12 - (sigma / r) ^ 6).

(** A real number safely inside the binary64 range: zero, or of a
    magnitude between [1e-300] and [1e300]. *)
Definition safe (x : R) : Prop :=
  x = 0 \/ 1e-300 <= Rabs x <= 1e300.

(** The table line of a cutoff [c] at least the threshold, with
    [epsilon = sigma = 1.0]. *)
Definition table_row (c : R) (label : string) : line :=
  let potential := lj_formula c 1.0 1.0 in
  let percentage := Rabs (potential / 1.0) * 100 in
  TableRow label (Fin potential) (Fin percentage)
           (significance (Fin percentage)).

(** The computational-impact line of a cutoff [c]. *)
Definition impact_line (c : R) (label : string) : line :=
  ImpactLine label (Fin (4 / 3 * PI * c ^ 3 * 0.8)) (Fin ((c / 2.0) ^ 3)).

Definition report_heading : stdout :=
  [ Text (str_mul "=" 60);
    Text "LENNARD-JONES POTENTIAL CUTOFF ANALYSIS";
    Text (str_mul "=" 60);
    Header ["Cutoff"; "Potential"; "% of ε"; "Significance"]%string;
    Text (str_mul "-" 60) ].

Definition report_table : stdout :=
  [ table_row 2.000 "2.0σ"; table_row 2.5 "2.5σ"; table_row 3.0 "3.0σ" ].

Definition impact_heading : stdout :=
  [ Text "
COMPUTATIONAL IMPACT:";
    Text (str_mul "-" 30) ].

Definition impact_lines : stdout :=
  [ impact_line 2.000 "2.0σ"; impact_line 2.5 "2.5σ"; impact_line 3.0 "3.0σ" ].

Definition recommendation_heading : stdout :=
  [ Text "
RECOMMENDATION:";
    Text (str_mul "-" 15) ].

Definition recommendation : stdout :=
  [ Text "• 2.0σ:   Very efficient, potential = -0.0615ε (6.15%)";
    Text "• 2.5σ:   Standard choice, potential = -0.0163ε (1.63%)";
    Text "• 3.0σ:   High accuracy, potential = -0.0067ε (0.67%)" ].

Definition closing_remarks : stdout :=
  [ Text "
2.0σ cutoff sacrifices some accuracy for maximum speed.";
    Text "2.5σ remains the best balance for most applications." ].

Definition report : stdout :=
  report_heading ++ report_table ++ impact_heading ++ impact_lines
  ++ recommendation_heading ++ recommendation ++ closing_remarks.

(** The distance [2^(1/6)], where the potential with [sigma = 1] is
    lowest. *)
Definition r_min : R := Rpower 2 (/ 6).

(** The tiers in rising order. *)
Definition tier_rank (tier : string) : nat :=
  if String.eqb tier "High" then 3
  else if String.eqb tier "Significant" then 2
  else if String.eqb tier "Moderate" then 1
  else 0.

(** The labels of the table lines and of the computational-impact lines
    of an output, in the order they were printed. *)
Definition table_labels (out : stdout) : list string :=
  flat_map (fun l => match l with
                     | TableRow label _ _ _ => [label]
                     | _ => []
                     end) out.

Definition impact_labels (out : stdout) : list string :=
  flat_map (fun l => match l with
                     | ImpactLine label _ _ => [label]
                     | _ => []
                     end) out.

(** The relative costs of the computational-impact lines of an output,
    in the order they were printed. *)
Definition impact_costs (out : stdout) : list pyfloat :=
  flat_map (fun l => match l with
                     | ImpactLine _ _ cost => [cost]
                     | _ => []
                     end) out.

(** A computation that neither reads nor writes the output: its outcome
    is the same in every state and the state is left as it was. *)
Definition stateless {A : Type} (m : Py A) : Prop :=
  exists o, forall out, m out = (o, out).

(** ** The binary64 range *)

Ltac eval_bounds :=
  unfold overflow_bound, underflow_bound;
  let c := eval vm_compute in (2 ^ 1024 - 2 ^ 970)%Z in
  change (2 ^ 1024 - 2 ^ 970)%Z with c;
  let d := eval vm_compute in (2 ^ 1075)%Z in
  change (2 ^ 1075)%Z with d.

Lemma overflow_bound_large : 1e301 < overflow_bound.
Proof. eval_bounds. lra. Qed.

Lemma underflow_bound_small : 0 < underflow_bound < 1e-301.
Proof. eval_bounds. lra. Qed.

Lemma flush_keeps (x : R) :
  x = 0 \/ underflow_bound < Rabs x -> flush x = x.
Proof.
  intros H. unfold flush. destruct (Rle_dec (Rabs x) underflow_bound) as [Hle | _].
  - destruct H as [-> | H]; [reflexivity | lra].
  - reflexivity.
Qed.

Lemma flush_cases (x : R) :
  flush x = x \/ (flush x = 0 /\ Rabs x <= underflow_bound).
Proof.
  unfold flush. destruct (Rle_dec (Rabs x) underflow_bound); auto.
Qed.

Lemma flush_abs_le (x : R) : Rabs (flush x) <= Rabs x.
Proof.
  destruct (flush_cases x) as [-> | [-> _]]; [lra |].
  rewrite Rabs_R0. apply Rabs_pos.
Qed.

Lemma flush_nonneg (x : R) : 0 <= x -> 0 <= flush x <= x.
Proof.
  intros Hx. destruct (flush_cases x) as [-> | [-> _]]; lra.
Qed.

Lemma saturate_keeps (x : R) :
  Rabs x < overflow_bound -> saturate x = Fin x.
Proof.
  intros H. unfold saturate.
  pose proof (Rle_abs x) as H1. pose proof (Rle_abs (- x)) as H2.
  rewrite Rabs_Ropp in H2.
  destruct (Rle_dec overflow_bound x); [lra |].
  destruct (Rle_dec x (- overflow_bound)); [lra | reflexivity].
Qed.

(** A result of a magnitude below the overflow bound stays finite. *)
Lemma round_to_range_finite (x : R) :
  Rabs x < overflow_bound -> round_to_range x = Fin (flush x).
Proof.
  intros H. unfold round_to_range. apply saturate_keeps.
  pose proof (flush_abs_le x). lra.
Qed.

Lemma safe_flush (x : R) : safe x -> flush x = x.
Proof.
  pose proof underflow_bound_small as Hu.
  intros [-> | [Hlo _]]; apply flush_keeps; [left; reflexivity | right].
  lra.
Qed.

Lemma safe_below_overflow (x : R) : safe x -> Rabs x < overflow_bound.
Proof.
  pose proof overflow_bound_large as Ho.
  intros [-> | [_ Hhi]]; [rewrite Rabs_R0 |]; lra.
Qed.

Lemma round_to_range_safe (x : R) : safe x -> round_to_range x = Fin x.
Proof.
  intros H. rewrite round_to_range_finite by (apply safe_below_overflow, H).
  rewrite safe_flush by exact H. reflexivity.
Qed.

Lemma safe_between (x lo hi : R) :
  1e-300 <= lo -> hi <= 1e300 -> lo <= x <= hi -> safe x.
Proof.
  intros Hlo Hhi Hx. right. rewrite Rabs_right by lra. lra.
Qed.

Lemma safe_between_neg (x lo hi : R) :
  1e-300 <= lo -> hi <= 1e300 -> - hi <= x <= - lo -> safe x.
Proof.
  intros Hlo Hhi Hx. right. rewrite Rabs_left1 by lra. lra.
Qed.

(** ** Running computations *)

Lemma bind_return {A B : Type} (m : Py A) (k : A -> Py B) (a : A)
  (out out' : stdout) :
  m out = (Return a, out') -> bind m k out = k a out'.
Proof. intros H. unfold bind. rewrite H. reflexivity. Qed.

Lemma bind_raise {A B : Type} (m : Py A) (k : A -> Py B) (e : exn)
  (out out' : stdout) :
  m out = (Raise e, out') -> bind m k out = (Raise e, out').
Proof. intros H. unfold bind. rewrite H. reflexivity. Qed.

Lemma bind_print {B : Type} (l : line) (k : unit -> Py B) (out : stdout) :
  bind (print l) k out = k tt (out ++ [l]).
Proof. reflexivity. Qed.

Section Comprehension.

Context {A B : Type}.

(** A comprehension whose body returns and prints nothing on every element
    of the list does the same, and its values are those of the body. *)
Lemma comprehension_values (f : A -> Py B) (P : A -> B -> Prop)
  (xs : list A) :
  (forall x, In x xs ->
             forall out, exists v, f x out = (Return v, out) /\ P x v) ->
  forall out, exists vs,
    comprehension f xs out = (Return vs, out) /\ Forall2 P xs vs.
Proof.
  induction xs as [|x xs IH]; intros Hf out; simpl.
  - exists []. split; [reflexivity | constructor].
  - destruct (Hf x (or_introl eq_refl) out) as [v [Hv HP]].
    destruct (IH (fun y Hy => Hf y (or_intror Hy)) out) as [vs [Hvs HF]].
    exists (v :: vs). split.
    + rewrite (bind_return _ _ _ _ _ Hv).
      rewrite (bind_return _ _ _ _ _ Hvs). reflexivity.
    + constructor; assumption.
Qed.

Lemma Forall2_length_eq (P : A -> B -> Prop) (xs : list A) (vs : list B) :
  Forall2 P xs vs -> List.length vs = List.length xs.
Proof. intros H. induction H; simpl; congruence. Qed.

Lemma Forall2_values (R' : B -> Prop) (xs : list A) (vs : list B) :
  Forall2 (fun _ v => R' v) xs vs -> Forall R' vs.
Proof. intros H. induction H; constructor; assumption. Qed.

End Comprehension.

(** A loop whose body always returns and prints nothing prints nothing. *)
Lemma for_each_silent {A : Type} (body : A -> Py unit) :
  (forall x out, body x out = (Return tt, out)) ->
  forall xs out, for_each xs body out = (Return tt, out).
Proof.
  intros Hb xs. induction xs as [|x xs IH]; intros out; simpl.
  - reflexivity.
  - rewrite (bind_return _ _ _ _ _ (Hb x out)). apply IH.
Qed.

Lemma stateless_ret {A : Type} (a : A) : stateless (ret a).
Proof. exists (Return a). reflexivity. Qed.

Lemma stateless_raise {A : Type} (e : exn) : stateless (@raise A e).
Proof. exists (Raise e). reflexivity. Qed.

Lemma stateless_bind {A B : Type} (m : Py A) (k : A -> Py B) :
  stateless m -> (forall a, stateless (k a)) -> stateless (bind m k).
Proof.
  intros [o Ho] Hk. destruct o as [a | e].
  - destruct (Hk a) as [o' Ho']. exists o'. intros out.
    rewrite (bind_return _ _ _ _ _ (Ho out)). apply Ho'.
  - exists (Raise e). intros out. apply (bind_raise _ _ _ _ _ (Ho out)).
Qed.

Lemma stateless_fdiv (a b : pyfloat) : stateless (fdiv a b).
Proof.
  unfold fdiv. destruct (is_zero b);
    [apply stateless_raise | apply stateless_ret].
Qed.

Lemma stateless_fpow (a : pyfloat) (n : nat) : stateless (fpow a n).
Proof.
  unfold fpow. destruct n; [apply stateless_ret |].
  destruct a; try apply stateless_ret.
  destruct (Rle_dec _ _); [apply stateless_raise | apply stateless_ret].
Qed.

Lemma stateless_lennard_jones (r epsilon sigma : pyfloat) :
  stateless (lennard_jones r epsilon sigma).
Proof.
  unfold lennard_jones. destruct (flt r (Fin 0.01)); [apply stateless_ret |].
  apply stateless_bind; [apply stateless_fdiv | intros q].
  apply stateless_bind; [apply stateless_fpow | intros sr6].
  apply stateless_bind; [apply stateless_fpow | intros sr12].
  apply stateless_ret.
Qed.

(** ** Arithmetic on finite values *)

Lemma flt_Fin (x y : R) :
  flt (Fin x) (Fin y) = true <-> x < y.
Proof.
  simpl. destruct (Rlt_dec x y); split; intros; try discriminate; tauto.
Qed.

Lemma flt_Fin_false (x y : R) :
  flt (Fin x) (Fin y) = false <-> y <= x.
Proof.
  simpl. destruct (Rlt_dec x y); split; intros; try discriminate;
    try reflexivity; lra.
Qed.

Lemma fdiv_Fin (x y : R) (out : stdout) :
  y <> 0 -> fdiv (Fin x) (Fin y) out = (Return (round_to_range (x / y)), out).
Proof.
  intros Hy. unfold fdiv, is_zero.
  destruct (Req_dec_T y 0); [contradiction | reflexivity].
Qed.

Lemma fdiv_safe (x y : R) (out : stdout) :
  y <> 0 -> safe (x / y) ->
  fdiv (Fin x) (Fin y) out = (Return (Fin (x / y)), out).
Proof.
  intros Hy Hs. rewrite fdiv_Fin by exact Hy.
  rewrite round_to_range_safe by exact Hs. reflexivity.
Qed.


(** Division returns whenever the divisor is not below the threshold of
    [lennard_jones]: such a divisor is not zero. *)
Lemma fdiv_guarded (a b : pyfloat) (out : stdout) :
  flt b (Fin 0.01) = false ->
  is_zero b = false /\ fdiv a b out = (Return (quotient a b), out).
Proof.
  intros Hb. assert (Hz : is_zero b = false).
  { destruct b as [y| | |]; try reflexivity.
    apply flt_Fin_false in Hb. simpl.
    destruct (Req_dec_T y 0); [lra | reflexivity]. }
  split; [exact Hz |]. unfold fdiv. rewrite Hz. reflexivity.
Qed.

Lemma fpow_finite (x : R) (n : nat) (out : stdout) :
  Rabs (x ^ S n) < overflow_bound ->
  fpow (Fin x) (S n) out = (Return (Fin (flush (x ^ S n))), out).
Proof.
  intros H. unfold fpow.
  destruct (Rle_dec overflow_bound (Rabs (x ^ S n))); [lra | reflexivity].
Qed.

Lemma fpow_safe (x : R) (n : nat) (out : stdout) :
  safe (x ^ S n) ->
  fpow (Fin x) (S n) out = (Return (Fin (x ^ S n)), out).
Proof.
  intros H. rewrite fpow_finite by (apply safe_below_overflow, H).
  rewrite safe_flush by exact H. reflexivity.
Qed.

Lemma fpow_overflow (x : R) (n : nat) (out : stdout) :
  overflow_bound <= Rabs (x ^ S n) ->
  fpow (Fin x) (S n) out = (Raise OverflowError, out).
Proof.
  intros H. unfold fpow.
  destruct (Rle_dec overflow_bound (Rabs (x ^ S n))); [reflexivity | lra].
Qed.

Lemma fmul_finite (x y : R) :
  Rabs (x * y) < overflow_bound -> fmul (Fin x) (Fin y) = Fin (flush (x * y)).
Proof. intros H. simpl. apply round_to_range_finite, H. Qed.

Lemma fmul_safe (x y : R) :
  safe (x * y) -> fmul (Fin x) (Fin y) = Fin (x * y).
Proof. intros H. simpl. apply round_to_range_safe, H. Qed.

Lemma fsub_finite (x y : R) :
  Rabs (x - y) < overflow_bound -> fsub (Fin x) (Fin y) = Fin (x - y).
Proof. intros H. simpl. apply saturate_keeps, H. Qed.

Lemma pow_lt_strict (a b : R) (n : nat) :
  0 <= a < b -> a ^ S n < b ^ S n.
Proof.
  intros [Ha Hab]. induction n as [|n IH].
  - simpl. lra.
  - change (a ^ S (S n)) with (a * a ^ S n).
    change (b ^ S (S n)) with (b * b ^ S n).
    apply Rmult_le_0_lt_compat; try assumption.
    apply pow_le, Ha.
Qed.

Lemma pow_le_self (a : R) (n : nat) : 0 <= a <= 1 -> a ^ S n <= a.
Proof.
  intros Ha. pose proof (pow_incr a 1 n Ha) as H. rewrite pow1 in H.
  pose proof (pow_le a n (proj1 Ha)) as H0.
  change (a ^ S n) with (a * a ^ n). nra.
Qed.

(** ** What [lennard_jones] computes *)

Lemma lennard_jones_below (r epsilon sigma : pyfloat) (out : stdout) :
  flt r (Fin 0.01) = true ->
  lennard_jones r epsilon sigma out = (Return PosInf, out).
Proof. intros H. unfold lennard_jones. rewrite H. reflexivity. Qed.

(** From the threshold on the division succeeds and the two powers
    follow. *)
Lemma lennard_jones_above (r epsilon sigma : pyfloat) (out : stdout) :
  flt r (Fin 0.01) = false ->
  lennard_jones r epsilon sigma out =
  (sr6 <- fpow (quotient sigma r) 6 ;;
   sr12 <- fpow sr6 2 ;;
   ret (fmul (fmul (Fin 4) epsilon) (fsub sr12 sr6))) out.
Proof.
  intros H. unfold lennard_jones. rewrite H.
  destruct (fdiv_guarded sigma r out H) as [_ Hq].
  rewrite (bind_return _ _ _ _ _ Hq). reflexivity.
Qed.


(** With [sigma = 1.0] no power can overflow: from the threshold on the
    quotient is at most 100. *)
Lemma lennard_jones_sigma_1 (r : R) (epsilon : pyfloat) (out : stdout) :
  0.01 <= r ->
  exists X Y,
    lennard_jones (Fin r) epsilon (Fin 1.0) out
    = (Return (fmul (fmul (Fin 4) epsilon) (Fin (Y - X))), out)
    /\ (X = (1.0 / r) ^ 6 \/ (X = 0 /\ (1.0 / r) ^ 6 <= underflow_bound))
    /\ (Y = X ^ 2 \/ (Y = 0 /\ X ^ 2 <= underflow_bound))
    /\ 0 <= X <= 1e12.
Proof.
  intros Hr. pose proof overflow_bound_large as Ho.
  pose proof underflow_bound_small as Hu.
  assert (Hq0 : 0 < 1.0 / r <= 100).
  { split.
    - apply Rdiv_lt_0_compat; lra.
    - apply Rmult_le_reg_r with (r := r); [lra |].
      unfold Rdiv. rewrite Rmult_assoc, Rinv_l by lra. lra. }
  set (q0 := 1.0 / r) in *.
  pose proof (flush_nonneg q0 ltac:(lra)) as Hq.
  set (q := flush q0) in *.
  assert (Hq6 : 0 <= q ^ 6 <= 1e12).
  { split; [apply pow_le; lra |].
    pose proof (pow_incr q 100 6 ltac:(lra)) as H. lra. }
  pose proof (flush_nonneg (q ^ 6) (proj1 Hq6)) as HX.
  set (X := flush (q ^ 6)) in *.
  assert (HX2 : 0 <= X ^ 2 <= 1e24).
  { split; [apply pow_le; lra |].
    pose proof (pow_incr X 1e12 2 ltac:(lra)) as H. lra. }
  pose proof (flush_nonneg (X ^ 2) (proj1 HX2)) as HY.
  set (Y := flush (X ^ 2)) in *.
  exists X, Y. split; [| split; [| split]].
  - rewrite lennard_jones_above by (apply flt_Fin_false; lra).
    unfold quotient. fold q0.
    rewrite round_to_range_finite by (rewrite Rabs_right; lra). fold q.
    rewrite (bind_return _ _ _ _ _
               (fpow_finite q 5 out ltac:(rewrite Rabs_right; lra))).
    fold X.
    rewrite (bind_return _ _ _ _ _
               (fpow_finite X 1 out ltac:(rewrite Rabs_right; lra))).
    fold Y. unfold ret. do 3 f_equal.
    apply fsub_finite. unfold Rabs. destruct (Rcase_abs (Y - X)); lra.
  - unfold X. destruct (flush_cases (q ^ 6)) as [-> | [-> Hsmall]].
    + unfold q. destruct (flush_cases q0) as [-> | [-> Hq0small]];
        [left; reflexivity | right].
      split; [ring |].
      rewrite Rabs_right in Hq0small by lra.
      pose proof (pow_le_self q0 5 ltac:(lra)). lra.
    + unfold q in *. destruct (flush_cases q0) as [Hk | [Hk Hq0small]].
      * rewrite Hk in *. right. split; [reflexivity |].
        rewrite Rabs_right in Hsmall by lra. exact Hsmall.
      * right. split; [reflexivity |].
        rewrite Rabs_right in Hq0small by lra.
        pose proof (pow_le_self q0 5 ltac:(lra)). lra.
  - unfold Y. destruct (flush_cases (X ^ 2)) as [-> | [-> Hsmall]];
      [left; reflexivity | right].
    split; [reflexivity |]. rewrite Rabs_right in Hsmall by lra. exact Hsmall.
  - lra.
Qed.

(** With both defaults the result is finite from the threshold on. *)
Lemma lennard_jones_defaults (r : R) (out : stdout) :
  0.01 <= r ->
  exists X Y,
    lennard_jones (Fin r) (Fin 1.0) (Fin 1.0) out
    = (Return (Fin (flush (4 * 1.0 * (Y - X)))), out)
    /\ (X = (1.0 / r) ^ 6 \/ (X = 0 /\ (1.0 / r) ^ 6 <= underflow_bound))
    /\ (Y = X ^ 2 \/ (Y = 0 /\ X ^ 2 <= underflow_bound))
    /\ 0 <= X <= 1e12.
Proof.
  intros Hr. pose proof overflow_bound_large as Ho.
  destruct (lennard_jones_sigma_1 r (Fin 1.0) out Hr)
    as [X [Y [Hrun [HX [HY HXb]]]]].
  exists X, Y. split; [| auto].
  rewrite Hrun. do 2 f_equal.
  rewrite fmul_safe by (apply safe_between with (lo := 4) (hi := 4); lra).
  apply fmul_finite.
  assert (HX2 : 0 <= X ^ 2 <= 1e24).
  { split; [apply pow_le; lra |].
    pose proof (pow_incr X 1e12 2 ltac:(lra)) as H. lra. }
  assert (HYb : 0 <= Y <= 1e24) by (destruct HY as [-> | [-> _]]; lra).
  unfold Rabs. destruct (Rcase_abs (4 * 1.0 * (Y - X))); lra.
Qed.

Lemma inverse_bounds (r lo hi : R) :
  0 < lo -> lo <= r <= hi -> 1.0 / hi <= 1.0 / r <= 1.0 / lo.
Proof.
  intros Hlo Hr. unfold Rdiv. split.
  - apply Rmult_le_compat_l; [lra |].
    apply Rinv_le_contravar; lra.
  - apply Rmult_le_compat_l; [lra |].
    apply Rinv_le_contravar; lra.
Qed.

(** Up to [1e25] neither power underflows: the result is the formula,
    unless the formula itself is too small for a double. *)
Lemma lennard_jones_defaults_mid (r : R) (out : stdout) :
  0.01 <= r <= 1e25 ->
  lennard_jones (Fin r) (Fin 1.0) (Fin 1.0) out
  = (Return (Fin (flush (lj_formula r 1.0 1.0))), out).
Proof.
  intros Hr. pose proof underflow_bound_small as Hu.
  destruct (lennard_jones_defaults r out ltac:(lra))
    as [X [Y [Hrun [HX [HY HXb]]]]].
  pose proof (inverse_bounds r 0.01 1e25 ltac:(lra) Hr) as Hq.
  assert (Hq6 : 1e-150 <= (1.0 / r) ^ 6).
  { pose proof (pow_incr (1.0 / 1e25) (1.0 / r) 6 ltac:(lra)) as H. lra. }
  destruct HX as [HX | [_ HX]]; [| lra].
  assert (HX2 : 1e-300 <= X ^ 2).
  { pose proof (pow_incr 1e-150 X 2 ltac:(lra)) as H. lra. }
  destruct HY as [HY | [_ HY]]; [| lra].
  rewrite Hrun. do 3 f_equal. rewrite HY, HX. unfold lj_formula.
  generalize (1.0 / r). intros q. generalize 1.0. intros e.
  f_equal. ring.
Qed.

Lemma lennard_jones_defaults_exact (r : R) (out : stdout) :
  0.01 <= r <= 1e25 ->
  lj_formula r 1.0 1.0 = 0 \/ underflow_bound < Rabs (lj_formula r 1.0 1.0) ->
  lennard_jones (Fin r) (Fin 1.0) (Fin 1.0) out
  = (Return (Fin (lj_formula r 1.0 1.0)), out).
Proof.
  intros Hr Hv. rewrite lennard_jones_defaults_mid by exact Hr.
  rewrite flush_keeps by exact Hv. reflexivity.
Qed.

(** With both defaults the result is never below -1, not negative up to
    [r = 1] and not positive from there on. *)
Lemma lennard_jones_defaults_bounds (r : R) (out : stdout) :
  0.01 <= r ->
  exists v,
    lennard_jones (Fin r) (Fin 1.0) (Fin 1.0) out = (Return (Fin v), out)
    /\ - 1 <= v
    /\ (r <= 1 -> 0 <= v)
    /\ (1 <= r -> v <= 0).
Proof.
  intros Hr. pose proof underflow_bound_small as Hu.
  destruct (lennard_jones_defaults r out Hr)
    as [X [Y [Hrun [HX [HY HXb]]]]].
  exists (flush (4 * 1.0 * (Y - X))). split; [exact Hrun |].
  assert (Hq0 : 0 < 1.0 / r) by (apply Rdiv_lt_0_compat; lra).
  assert (Hd : - / 4 <= Y - X).
  { destruct HY as [-> | [-> HY]].
    - pose proof (Rle_0_sqr (X - / 2)) as Hs. unfold Rsqr in Hs. lra.
    - assert (X < / 4); [| lra].
      destruct (Rlt_dec X (/ 4)) as [H | H]; [exact H | exfalso].
      pose proof (pow_incr (/ 4) X 2 ltac:(lra)) as Hp. lra. }
  split; [| split].
  - destruct (flush_cases (4 * 1.0 * (Y - X))) as [-> | [-> _]]; lra.
  - intros H1.
    pose proof (inverse_bounds r 0.01 1 ltac:(lra) ltac:(lra)) as Hq.
    pose proof (pow_incr (1.0 / 1) (1.0 / r) 6 ltac:(lra)) as Hq6.
    destruct HX as [HX | [_ HX]]; [| lra].
    assert (X1 : 1 <= X) by lra.
    pose proof (pow_incr 1 X 2 ltac:(lra)) as HX2.
    destruct HY as [HY | [_ HY]]; [| lra].
    assert (0 <= Y - X) by (rewrite HY; nra).
    destruct (flush_cases (4 * 1.0 * (Y - X))) as [-> | [-> _]]; lra.
  - intros H1.
    assert (HX1 : 0 <= X <= 1).
    { destruct HX as [-> | [-> _]]; [| lra].
      split; [apply pow_le; lra |].
      assert (Hq : 1.0 / r <= 1).
      { apply Rmult_le_reg_r with (r := r); [lra |].
        unfold Rdiv. rewrite Rmult_assoc, Rinv_l by lra. lra. }
      pose proof (pow_incr (1.0 / r) 1 6 ltac:(lra)) as H. lra. }
    assert (Y - X <= 0) by (destruct HY as [-> | [-> _]]; nra).
    destruct (flush_cases (4 * 1.0 * (Y - X))) as [-> | [-> _]]; lra.
Qed.

(** On the special values of the distance. *)
Lemma lennard_jones_returns_sigma_1 (r epsilon : pyfloat) (out : stdout) :
  exists v, lennard_jones r epsilon (Fin 1.0) out = (Return v, out).
Proof.
  destruct (flt r (Fin 0.01)) eqn:Hflt.
  - eexists. apply lennard_jones_below, Hflt.
  - destruct r as [x | | |].
    + apply flt_Fin_false in Hflt.
      destruct (lennard_jones_sigma_1 x epsilon out Hflt) as [X [Y [H _]]].
      eexists. exact H.
    + rewrite lennard_jones_above by exact Hflt.
      eexists. unfold quotient.
      rewrite (bind_return _ _ _ _ _
                 (fpow_finite 0 5 out ltac:(
                    replace (0 ^ 6) with 0 by ring; rewrite Rabs_R0;
                    pose proof overflow_bound_large; lra))).
      rewrite (bind_return _ _ _ _ _
                 (fpow_finite (flush (0 ^ 6)) 1 out ltac:(
                    replace (0 ^ 6) with 0 by ring;
                    rewrite (flush_keeps 0) by (left; reflexivity);
                    replace (0 ^ 2) with 0 by ring; rewrite Rabs_R0;
                    pose proof overflow_bound_large; lra))).
      reflexivity.
    + discriminate Hflt.
    + rewrite lennard_jones_above by exact Hflt. eexists. reflexivity.
Qed.

(** ** The formula over the reals *)

Ltac eval_Rabs := unfold Rabs; destruct (Rcase_abs _); lra.

Lemma r_min_pos : 0 < r_min.
Proof. unfold r_min, Rpower. apply exp_pos. Qed.

Lemma r_min_pow6 : r_min ^ 6 = 2.
Proof.
  rewrite <- (Rpower_pow 6 r_min r_min_pos). unfold r_min.
  rewrite Rpower_mult.
  replace (/ 6 * INR 6) with 1 by (simpl; lra).
  apply Rpower_1. lra.
Qed.

Lemma r_min_ge_1 : 1 <= r_min.
Proof.
  destruct (Rle_dec 1 r_min) as [H | H]; [exact H | exfalso].
  pose proof r_min_pos as Hpos. pose proof r_min_pow6 as H6.
  assert (H2 : r_min ^ 2 < 1) by nra.
  assert (H0 : 0 < r_min ^ 2) by nra.
  assert (H4 : r_min ^ 2 * r_min ^ 2 < 1) by nra.
  assert (H6' : r_min ^ 6 = r_min ^ 2 * r_min ^ 2 * r_min ^ 2) by ring.
  nra.
Qed.

Lemma r_min_gt_1 : 1 < r_min.
Proof.
  pose proof r_min_ge_1 as H. pose proof r_min_pow6 as H6.
  destruct H as [H | H]; [exact H | exfalso].
  rewrite <- H in H6. replace (1 ^ 6) with 1 in H6 by ring. lra.
Qed.

Lemma r_min_le_2 : r_min <= 2.
Proof.
  destruct (Rle_dec r_min 2) as [H | H]; [exact H | exfalso].
  pose proof (pow_lt_strict 2 r_min 5 ltac:(lra)) as Hp.
  rewrite r_min_pow6 in Hp. lra.
Qed.

Lemma lj_formula_at_r_min : lj_formula r_min 1.0 1.0 = - 1.
Proof.
  pose proof r_min_pos as Hpos. pose proof r_min_pow6 as H6.
  unfold lj_formula. replace 1.0 with 1 by lra.
  assert (Hx : (1 / r_min) ^ 6 = / 2).
  { rewrite <- H6. field. lra. }
  replace ((1 / r_min) ^ 12) with ((1 / r_min) ^ 6 * (1 / r_min) ^ 6)
    by ring.
  rewrite Hx. lra.
Qed.

(** The potential never goes below [- epsilon] when [epsilon] is not
    negative: [4 (x^2 - x) + 1] is the square [(2 x - 1)^2]. *)
Lemma lj_formula_lower_bound (r epsilon sigma : R) :
  0 <= epsilon -> - epsilon <= lj_formula r epsilon sigma.
Proof.
  intros He. unfold lj_formula.
  replace ((sigma / r) ^ 12) with ((sigma / r) ^ 6 * (sigma / r) ^ 6) by ring.
  generalize ((sigma / r) ^ 6). intros x.
  assert (H : 0 <= epsilon * ((2 * x - 1) * (2 * x - 1))).
  { apply Rmult_le_pos; [exact He | apply Rle_0_sqr]. }
  lra.
Qed.

(** The sixth power of [sigma / r], on which alone the formula depends. *)
Lemma lj_formula_sr6 (r epsilon sigma : R) :
  lj_formula r epsilon sigma =
  4 * epsilon * ((sigma / r) ^ 6 * ((sigma / r) ^ 6 - 1)).
Proof. unfold lj_formula. ring. Qed.

Lemma sr6_pos (r sigma : R) :
  0 < sigma -> 0 < r -> 0 < (sigma / r) ^ 6.
Proof.
  intros Hs Hr. apply pow_lt. apply Rdiv_lt_0_compat; assumption.
Qed.

Lemma sr6_decreasing (r1 r2 sigma : R) :
  0 < sigma -> 0 < r1 < r2 -> (sigma / r2) ^ 6 < (sigma / r1) ^ 6.
Proof.
  intros Hs [H1 H12]. apply pow_lt_strict. split.
  - apply Rlt_le, Rdiv_lt_0_compat; lra.
  - unfold Rdiv. apply Rmult_lt_compat_l; [exact Hs |].
    apply Rinv_lt_contravar; [| exact H12].
    apply Rmult_lt_0_compat; lra.
Qed.

(** [(sigma / r)^6] compared with 1: it is 1 at [r = sigma]. *)
Lemma sr6_at_sigma (sigma : R) : 0 < sigma -> (sigma / sigma) ^ 6 = 1.
Proof.
  intros Hs. replace (sigma / sigma) with 1 by (field; lra). ring.
Qed.

(** From [sigma * 2^(1/6)] on, [(sigma / r)^6] is at most one half. *)
Lemma sr6_at_well (sigma : R) :
  0 < sigma -> (sigma / (sigma * r_min)) ^ 6 = / 2.
Proof.
  intros Hs. pose proof r_min_pos as Hm.
  replace (sigma / (sigma * r_min)) with (/ r_min) by (field; lra).
  rewrite pow_inv, r_min_pow6. reflexivity.
Qed.

Lemma sr6_beyond_well (r sigma : R) :
  0 < sigma -> sigma * r_min <= r -> (sigma / r) ^ 6 <= / 2.
Proof.
  intros Hs Hr. pose proof r_min_pos as Hm.
  assert (H0 : 0 < sigma * r_min) by (apply Rmult_lt_0_compat; lra).
  destruct Hr as [Hr | <-].
  - rewrite <- (sr6_at_well sigma Hs). apply Rlt_le.
    apply sr6_decreasing; [exact Hs | lra].
  - rewrite (sr6_at_well sigma Hs). lra.
Qed.

Lemma lj_formula_sign (r epsilon sigma : R) :
  0 < epsilon -> 0 < sigma -> 0 < r ->
  (r < sigma -> 0 < lj_formula r epsilon sigma)
  /\ (r = sigma -> lj_formula r epsilon sigma = 0)
  /\ (sigma < r -> lj_formula r epsilon sigma < 0).
Proof.
  intros He Hs Hr. rewrite lj_formula_sr6.
  pose proof (sr6_pos r sigma Hs Hr) as Hx.
  repeat split.
  - intros Hlt.
    pose proof (sr6_decreasing r sigma sigma Hs (conj Hr Hlt)) as Hd.
    rewrite sr6_at_sigma in Hd by exact Hs.
    apply Rmult_lt_0_compat; [lra |]. apply Rmult_lt_0_compat; lra.
  - intros ->. rewrite sr6_at_sigma by exact Hs. ring.
  - intros Hlt.
    pose proof (sr6_decreasing sigma r sigma Hs (conj Hs Hlt)) as Hd.
    rewrite sr6_at_sigma in Hd by exact Hs.
    assert (H : 0 < 4 * epsilon * ((sigma / r) ^ 6 * (1 - (sigma / r) ^ 6))).
    { apply Rmult_lt_0_compat; [lra |]. apply Rmult_lt_0_compat; lra. }
    lra.
Qed.

(** Past the well the formula rises with the distance, before it it
    falls. *)
Lemma lj_formula_rising (r1 r2 epsilon sigma : R) :
  0 < epsilon -> 0 < sigma -> sigma * r_min <= r1 -> r1 < r2 ->
  lj_formula r1 epsilon sigma < lj_formula r2 epsilon sigma.
Proof.
  intros He Hs H1 H12. pose proof r_min_pos as Hm.
  assert (H0 : 0 < sigma * r_min) by (apply Rmult_lt_0_compat; lra).
  rewrite !lj_formula_sr6.
  pose proof (sr6_beyond_well r1 sigma Hs H1) as Hx1.
  pose proof (sr6_decreasing r1 r2 sigma Hs ltac:(lra)) as Hd.
  pose proof (sr6_pos r2 sigma Hs ltac:(lra)) as Hx2.
  set (x1 := (sigma / r1) ^ 6) in *. set (x2 := (sigma / r2) ^ 6) in *.
  assert (H : 0 < epsilon * ((x1 - x2) * (1 - x1 - x2)))
    by (apply Rmult_lt_0_compat; [lra |]; apply Rmult_lt_0_compat; lra).
  lra.
Qed.

Lemma lj_formula_falling (r1 r2 epsilon sigma : R) :
  0 < epsilon -> 0 < sigma -> 0 < r1 -> r1 < r2 -> r2 <= sigma * r_min ->
  lj_formula r2 epsilon sigma < lj_formula r1 epsilon sigma.
Proof.
  intros He Hs H1 H12 H2. pose proof r_min_pos as Hm.
  assert (H0 : 0 < sigma * r_min) by (apply Rmult_lt_0_compat; lra).
  rewrite !lj_formula_sr6.
  pose proof (sr6_decreasing r1 r2 sigma Hs ltac:(lra)) as Hd.
  assert (Hx2 : / 2 <= (sigma / r2) ^ 6).
  { destruct H2 as [H2 | ->].
    - rewrite <- (sr6_at_well sigma Hs). apply Rlt_le.
      apply sr6_decreasing; [exact Hs | lra].
    - rewrite (sr6_at_well sigma Hs). lra. }
  set (x1 := (sigma / r1) ^ 6) in *. set (x2 := (sigma / r2) ^ 6) in *.
  assert (H : 0 < epsilon * ((x1 - x2) * (x1 + x2 - 1)))
    by (apply Rmult_lt_0_compat; [lra |]; apply Rmult_lt_0_compat; lra).
  lra.
Qed.

Lemma significance_Fin (p : R) :
  significance (Fin p) =
  if Rlt_dec 5.0 p then "High"%string
  else if Rlt_dec 2.0 p then "Significant"%string
  else if Rlt_dec 1.0 p then "Moderate"%string
  else "Negligible"%string.
Proof.
  unfold significance, fgt, flt.
  destruct (Rlt_dec 5.0 p), (Rlt_dec 2.0 p), (Rlt_dec 1.0 p); reflexivity.
Qed.

Lemma tier_rank_monotone (p q : R) :
  p <= q ->
  (tier_rank (significance (Fin p)) <= tier_rank (significance (Fin q)))%nat.
Proof.
  intros Hpq. rewrite !significance_Fin.
  destruct (Rlt_dec 5.0 p), (Rlt_dec 2.0 p), (Rlt_dec 1.0 p),
    (Rlt_dec 5.0 q), (Rlt_dec 2.0 q), (Rlt_dec 1.0 q);
    try lra; cbn; repeat constructor.
Qed.

Lemma lj_formula_at_2 : lj_formula 2.000 1.0 1.0 = - 63 / 1024.
Proof. unfold lj_formula. lra. Qed.

Lemma lj_formula_at_2_5 : lj_formula 2.5 1.0 1.0 = - 3983616 / 244140625.
Proof. unfold lj_formula. lra. Qed.

Lemma lj_formula_at_3 : lj_formula 3.0 1.0 1.0 = - 2912 / 531441.
Proof. unfold lj_formula. lra. Qed.

Lemma table_row_eq (c v p : R) (label tier : string) :
  lj_formula c 1.0 1.0 = v ->
  Rabs (v / 1.0) * 100 = p ->
  significance (Fin p) = tier ->
  table_row c label = TableRow label (Fin v) (Fin p) tier.
Proof. intros Hv Hp Ht. unfold table_row. rewrite Hv, Hp, Ht. reflexivity. Qed.

Lemma impact_line_eq (c cost : R) (label : string) :
  (c / 2.0) ^ 3 = cost ->
  impact_line c label = ImpactLine label (Fin (4 / 3 * PI * c ^ 3 * 0.8)) (Fin cost).
Proof. intros H. unfold impact_line. rewrite H. reflexivity. Qed.

Lemma linspace_sample_bounds (start stop : R) (num i : nat) :
  start <= stop -> (i < num)%nat ->
  start <= start + INR i * ((stop - start) / INR (num - 1)) <= stop.
Proof.
  intros Hss Hi.
  destruct (Nat.eq_dec (num - 1) 0) as [H0 | H0].
  - assert (i = 0%nat) by lia. subst i. simpl. lra.
  - assert (Hn : 0 < INR (num - 1)) by (apply lt_0_INR; lia).
    assert (Hin : 0 <= INR i <= INR (num - 1)).
    { split; [apply pos_INR | apply le_INR; lia]. }
    assert (Ht : 0 <= INR i / INR (num - 1) <= 1).
    { split.
      - apply Rmult_le_pos; [lra |]. apply Rlt_le, Rinv_0_lt_compat, Hn.
      - apply Rmult_le_reg_r with (r := INR (num - 1)); [exact Hn |].
        unfold Rdiv. rewrite Rmult_assoc, Rinv_l by lra. lra. }
    replace (INR i * ((stop - start) / INR (num - 1)))
      with (INR i / INR (num - 1) * (stop - start)) by (field; lra).
    split; nra.
Qed.

Lemma linspace_between (start stop : R) (num : nat) :
  start <= stop ->
  Forall (fun v => exists x, v = Fin x /\ start <= x <= stop)
         (linspace start stop num).
Proof.
  intros Hss. unfold linspace. apply Forall_map, Forall_forall.
  intros i Hi. apply in_seq in Hi. eexists. split; [reflexivity |].
  apply linspace_sample_bounds; [exact Hss | lia].
Qed.


(** ** The tail of the potential and the report loops *)

Lemma lj_formula_tail_bounds (c : R) :
  1.5 <= c <= 1e25 -> - 1 <= lj_formula c 1.0 1.0 <= - 1e-150.
Proof.
  intros Hc.
  pose proof (lj_formula_lower_bound c 1.0 1.0 ltac:(lra)) as Hlow.
  split; [lra |].
  rewrite lj_formula_sr6.
  pose proof (inverse_bounds c 1.5 1e25 ltac:(lra) Hc) as Hq.
  pose proof (pow_incr (1.0 / 1e25) (1.0 / c) 6 ltac:(lra)) as Hlo.
  pose proof (pow_incr (1.0 / c) (1.0 / 1.5) 6 ltac:(lra)) as Hhi.
  set (X := (1.0 / c) ^ 6) in *.
  assert (H : X * (X - 1) <= X * (- 0.9))
    by (apply Rmult_le_compat_l; lra).
  lra.
Qed.

Lemma lennard_jones_tail (c : R) (out : stdout) :
  1.5 <= c <= 1e25 ->
  lennard_jones (Fin c) (Fin 1.0) (Fin 1.0) out
  = (Return (Fin (lj_formula c 1.0 1.0)), out).
Proof.
  intros Hc. pose proof (lj_formula_tail_bounds c Hc) as Hb.
  pose proof underflow_bound_small as Hu.
  apply lennard_jones_defaults_exact; [lra | right].
  rewrite Rabs_left1 by lra. lra.
Qed.

Lemma percentage_of_Fin (v e : R) (out : stdout) :
  e <> 0 -> safe (v / e) -> safe (Rabs (v / e) * 100) ->
  percentage_of (Fin v) (Fin e) out = (Return (Fin (Rabs (v / e) * 100)), out).
Proof.
  intros He Hq Hp. unfold percentage_of.
  rewrite (bind_return _ _ _ _ _ (fdiv_safe v e out He Hq)).
  unfold ret. do 2 f_equal. apply fmul_safe, Hp.
Qed.

Lemma percentage_of_inf (e : R) (out : stdout) :
  e <> 0 ->
  percentage_of PosInf (Fin e) out = (Return PosInf, out)
  /\ percentage_of NegInf (Fin e) out = (Return PosInf, out).
Proof.
  intros He. unfold percentage_of, fdiv, is_zero.
  destruct (Req_dec_T e 0); [contradiction |].
  unfold bind, ret, quotient, inf_times.
  split; destruct (Rlt_dec 0 e); destruct (Rlt_dec e 0); try lra;
    cbn; unfold inf_times; destruct (Rlt_dec 0 100); try lra; reflexivity.
Qed.

Lemma percentage_of_tail (c : R) (out : stdout) :
  1.5 <= c <= 1e25 ->
  percentage_of (Fin (lj_formula c 1.0 1.0)) (Fin 1.0) out
  = (Return (Fin (Rabs (lj_formula c 1.0 1.0 / 1.0) * 100)), out).
Proof.
  intros Hc. pose proof (lj_formula_tail_bounds c Hc) as Hb.
  apply percentage_of_Fin; [lra | |].
  - apply safe_between_neg with (lo := 1e-150) (hi := 1); lra.
  - apply safe_between with (lo := 1e-148) (hi := 100); try lra.
    rewrite Rabs_left1 by lra. lra.
Qed.

Lemma report_row_run (c : R) (label color : string) (out : stdout) :
  1.5 <= c <= 1e25 ->
  report_row (Fin 1.0) (Fin 1.0) (Fin c, label, color) out =
  (Return tt, out ++ [table_row c label]).
Proof.
  intros Hc. unfold report_row.
  rewrite (bind_return _ _ _ _ _ (lennard_jones_tail c out Hc)).
  rewrite (bind_return _ _ _ _ _ (percentage_of_tail c out Hc)).
  reflexivity.
Qed.

Lemma cube_safe (x lo hi : R) :
  0 <= lo -> 1e-300 <= lo ^ 3 -> hi ^ 3 <= 1e300 ->
  lo <= Rabs x <= hi -> safe (x ^ 3).
Proof.
  intros H0 Hlo Hhi Hx. right. rewrite <- RPow_abs.
  pose proof (pow_incr lo (Rabs x) 3 ltac:(lra)) as H1.
  pose proof (pow_incr (Rabs x) hi 3 ltac:(split; [apply Rabs_pos | lra]))
    as H2.
  lra.
Qed.

Lemma Rabs_div_const (c k : R) : 0 < k -> Rabs (c / k) = Rabs c / k.
Proof.
  intros Hk. unfold Rdiv. rewrite Rabs_mult, Rabs_inv.
  rewrite (Rabs_right k) by lra. reflexivity.
Qed.

(** A cube of a quotient by a constant between 1 and 10 is safe for
    every cutoff of a magnitude between [1e-99] and [1e99]. *)
Lemma cost_Fin (c k : R) (out : stdout) :
  1 <= k <= 10 -> c = 0 \/ 1e-99 <= Rabs c <= 1e99 ->
  (q <- fdiv (Fin c) (Fin k) ;; fpow q 3) out
  = (Return (Fin ((c / k) ^ 3)), out).
Proof.
  intros Hk Hc.
  assert (Hq : c / k = 0 \/ 1e-100 <= Rabs (c / k) <= 1e99).
  { destruct Hc as [-> | Hc]; [left; unfold Rdiv; ring | right].
    rewrite Rabs_div_const by lra.
    assert (Hinv : / 10 <= / k <= 1).
    { split.
      - apply Rinv_le_contravar; lra.
      - rewrite <- Rinv_1. apply Rinv_le_contravar; lra. }
    unfold Rdiv. pose proof (Rabs_pos c). split; nra. }
  assert (Hs : safe (c / k)).
  { destruct Hq as [-> | Hq]; [left; reflexivity | right; lra]. }
  rewrite (bind_return _ _ _ _ _ (fdiv_safe c k out ltac:(lra) Hs)).
  apply fpow_safe.
  destruct Hq as [-> | Hq]; [left; ring |].
  apply cube_safe with (lo := 1e-100) (hi := 1e99); lra.
Qed.

Lemma relative_cost_Fin (c : R) (out : stdout) :
  c = 0 \/ 1e-99 <= Rabs c <= 1e99 ->
  relative_cost (Fin c) out = (Return (Fin ((c / 2.0) ^ 3)), out).
Proof. intros Hc. apply cost_Fin; [lra | exact Hc]. Qed.

Lemma scaling_cost_Fin (r : R) (out : stdout) :
  r = 0 \/ 1e-99 <= Rabs r <= 1e99 ->
  scaling_cost (Fin r) out = (Return (Fin ((r / 2.5) ^ 3)), out).
Proof. intros Hr. apply cost_Fin; [lra | exact Hr]. Qed.

Lemma product_bounds (a b la ha lb hb : R) :
  0 <= la -> 0 <= lb -> la <= a <= ha -> lb <= b <= hb ->
  la * lb <= a * b <= ha * hb.
Proof. intros. split; apply Rmult_le_compat; lra. Qed.

Lemma impact_row_run (c : R) (label : string) (out : stdout) :
  1e-99 <= c <= 1e99 ->
  impact_row (Fin c, label) out = (Return tt, out ++ [impact_line c label]).
Proof.
  intros Hc. unfold impact_row.
  pose proof PI2_3_2 as Hpi3. pose proof PI_4 as Hpi4.
  rewrite (bind_return _ _ _ _ _
             (fdiv_safe 4 3 out ltac:(lra)
                ltac:(apply safe_between with (lo := 1) (hi := 2); lra))).
  assert (Hc3 : 1e-297 <= c ^ 3 <= 1e297).
  { pose proof (pow_incr 1e-99 c 3 ltac:(lra)) as H1.
    pose proof (pow_incr c 1e99 3 ltac:(lra)) as H2. lra. }
  rewrite (bind_return _ _ _ _ _
             (fpow_safe c 2 out
                ltac:(apply safe_between with (lo := 1e-297) (hi := 1e297);
                      lra))).
  rewrite (bind_return _ _ _ _ _
             (relative_cost_Fin c out
                ltac:(right; rewrite Rabs_right by lra; lra))).
  unfold print, impact_line, density. do 4 f_equal.
  rewrite fmul_safe
    by (apply safe_between with (lo := 1) (hi := 6); lra).
  pose proof (product_bounds (4 / 3 * PI) (c ^ 3) 4 (16 / 3) 1e-297 1e297
                ltac:(lra) ltac:(lra) ltac:(lra) Hc3) as Hv.
  rewrite fmul_safe
    by (apply safe_between with (lo := 4e-297) (hi := 16 / 3 * 1e297); lra).
  rewrite fmul_safe
    by (apply safe_between with (lo := 3.2e-297) (hi := 5e297); lra).
  reflexivity.
Qed.

Lemma mark_cutoff_silent (epsilon : pyfloat)
  (item : pyfloat * string * string) (out : stdout) :
  mark_cutoff epsilon (Fin 1.0) item out = (Return tt, out).
Proof.
  destruct item as [[cutoff label] color]. unfold mark_cutoff.
  destruct (lennard_jones_returns_sigma_1 cutoff epsilon out) as [v Hv].
  rewrite (bind_return _ _ _ _ _ Hv). reflexivity.
Qed.

Lemma comparison_entry_silent (cutoff : pyfloat) (out : stdout) :
  In cutoff cutoffs ->
  exists v, comparison_entry (Fin 1.0) (Fin 1.0) cutoff out = (Return v, out).
Proof.
  intros Hin. unfold comparison_entry.
  assert (Hc : exists c, cutoff = Fin c /\ 1.5 <= c <= 1e25).
  { unfold cutoffs in Hin. simpl in Hin.
    destruct Hin as [H | [H | [H | []]]]; subst cutoff;
      eexists; (split; [reflexivity | lra]). }
  destruct Hc as [c [-> Hc]].
  rewrite (bind_return _ _ _ _ _ (lennard_jones_tail c out Hc)).
  rewrite (bind_return _ _ _ _ _ (percentage_of_tail c out Hc)).
  eexists. reflexivity.
Qed.

(** ** The whole report *)

(** A comprehension whose body returns and prints nothing on every
    element returns and prints nothing. *)
Lemma comprehension_silent {A B : Type} (f : A -> Py B) (xs : list A) :
  (forall x, In x xs -> forall out, exists v, f x out = (Return v, out)) ->
  forall out, exists vs, comprehension f xs out = (Return vs, out).
Proof.
  intros Hf out.
  destruct (comprehension_values f (fun _ _ => True) xs
              (fun x Hx o => match Hf x Hx o with
                             | ex_intro _ v Hv => ex_intro _ v (conj Hv I)
                             end) out) as [vs [Hvs _]].
  exists vs. exact Hvs.
Qed.

Lemma report_rows_run (out : stdout) :
  for_each (zip3 cutoffs cutoff_labels colors)
           (report_row (Fin 1.0) (Fin 1.0)) out
  = (Return tt, out ++ report_table).
Proof.
  unfold zip3, cutoffs, cutoff_labels, colors. cbn [combine for_each].
  rewrite (bind_return _ _ _ _ _
             (report_row_run 2.000 _ _ _ ltac:(lra))).
  rewrite (bind_return _ _ _ _ _ (report_row_run 2.5 _ _ _ ltac:(lra))).
  rewrite (bind_return _ _ _ _ _ (report_row_run 3.0 _ _ _ ltac:(lra))).
  unfold ret, report_table. rewrite <- !app_assoc. reflexivity.
Qed.

Lemma impact_rows_run (out : stdout) :
  for_each (combine cutoffs cutoff_labels) impact_row out
  = (Return tt, out ++ impact_lines).
Proof.
  unfold cutoffs, cutoff_labels. cbn [combine for_each].
  rewrite (bind_return _ _ _ _ _ (impact_row_run 2.000 _ _ ltac:(lra))).
  rewrite (bind_return _ _ _ _ _ (impact_row_run 2.5 _ _ ltac:(lra))).
  rewrite (bind_return _ _ _ _ _ (impact_row_run 3.0 _ _ ltac:(lra))).
  unfold ret, impact_lines. rewrite <- !app_assoc. reflexivity.
Qed.

Lemma analyze_run (out : stdout) :
  analyze_cutoff_comparison out = (Return tt, out ++ report).
Proof.
  unfold analyze_cutoff_comparison.
  destruct (comprehension_silent
              (fun r => lennard_jones r (Fin 1.0) (Fin 1.0))
              (linspace 0.9 4.0 1000)
              (fun x _ o => lennard_jones_returns_sigma_1 x _ o) out)
    as [pv Hpv].
  rewrite (bind_return _ _ _ _ _ Hpv).
  rewrite (bind_return _ _ _ _ _
             (for_each_silent _ (mark_cutoff_silent _) _ out)).
  destruct (comprehension_silent
              (fun r => lennard_jones r (Fin 1.0) (Fin 1.0))
              (linspace 2.0 4.0 500)
              (fun x _ o => lennard_jones_returns_sigma_1 x _ o) out)
    as [tp Htp].
  rewrite (bind_return _ _ _ _ _ Htp).
  rewrite (bind_return _ _ _ _ _
             (for_each_silent _ (mark_cutoff_silent _) _ out)).
  destruct (comprehension_silent
              (comparison_entry (Fin 1.0) (Fin 1.0)) cutoffs
              (fun x Hx o => comparison_entry_silent x o Hx) out)
    as [cd Hcd].
  rewrite (bind_return _ _ _ _ _ Hcd).
  rewrite !bind_print.
  rewrite (bind_return _ _ _ _ _ (report_rows_run _)).
  rewrite !bind_print.
  rewrite (bind_return _ _ _ _ _ (impact_rows_run _)).
  rewrite !bind_print.
  unfold print, report. rewrite <- !app_assoc. reflexivity.
Qed.

(** ** The three cutoffs, evaluated *)

Lemma table_row_2 :
  table_row 2.000 "2.0σ" =
  TableRow "2.0σ" (Fin (- 63 / 1024)) (Fin (1575 / 256)) "High".
Proof.
  apply table_row_eq.
  - apply lj_formula_at_2.
  - eval_Rabs.
  - rewrite significance_Fin.
    destruct (Rlt_dec 5.0 (1575 / 256)); [reflexivity | lra].
Qed.

Lemma table_row_2_5 :
  table_row 2.5 "2.5σ" =
  TableRow "2.5σ" (Fin (- 3983616 / 244140625)) (Fin (398361600 / 244140625))
           "Moderate".
Proof.
  apply table_row_eq.
  - apply lj_formula_at_2_5.
  - eval_Rabs.
  - rewrite significance_Fin.
    destruct (Rlt_dec 5.0 _); [lra |]. destruct (Rlt_dec 2.0 _); [lra |].
    destruct (Rlt_dec 1.0 _); [reflexivity | lra].
Qed.

Lemma table_row_3 :
  table_row 3.0 "3.0σ" =
  TableRow "3.0σ" (Fin (- 2912 / 531441)) (Fin (291200 / 531441))
           "Negligible".
Proof.
  apply table_row_eq.
  - apply lj_formula_at_3.
  - eval_Rabs.
  - rewrite significance_Fin.
    destruct (Rlt_dec 5.0 _); [lra |]. destruct (Rlt_dec 2.0 _); [lra |].
    destruct (Rlt_dec 1.0 _); [lra | reflexivity].
Qed.

(** ** The scaling demonstration *)

Lemma demo_potential (x : R) (out : stdout) :
  1.8 <= x <= 4.0 ->
  exists v,
    (v <- lennard_jones_default (Fin x) ;; ret (fabs v)) out
    = (Return v, out)
    /\ exists p, v = Fin p /\ 0 < p <= 1.
Proof.
  intros Hx. unfold lennard_jones_default.
  rewrite (bind_return _ _ _ _ _ (lennard_jones_tail x out ltac:(lra))).
  pose proof (lj_formula_tail_bounds x ltac:(lra)) as Hb.
  eexists. split; [reflexivity |].
  eexists. split; [reflexivity |].
  rewrite Rabs_left1 by lra. lra.
Qed.

Lemma demo_cost (x : R) (out : stdout) :
  1.8 <= x <= 4.0 ->
  exists v,
    scaling_cost (Fin x) out = (Return v, out)
    /\ v = Fin ((x / 2.5) ^ 3) /\ 0.373248 <= (x / 2.5) ^ 3 <= 4.096.
Proof.
  intros Hx. eexists. split; [| split; [reflexivity |]].
  - apply scaling_cost_Fin. right. rewrite Rabs_right by lra. lra.
  - pose proof (pow_incr (1.8 / 2.5) (x / 2.5) 3 ltac:(lra)) as Hlo.
    pose proof (pow_incr (x / 2.5) (4.0 / 2.5) 3 ltac:(lra)) as Hhi.
    lra.
Qed.

Lemma In_linspace (start stop : R) (num : nat) (v : pyfloat) :
  start <= stop -> In v (linspace start stop num) ->
  exists x, v = Fin x /\ start <= x <= stop.
Proof.
  intros Hss Hin.
  pose proof (linspace_between start stop num Hss) as Hb.
  rewrite Forall_forall in Hb. apply Hb, Hin.
Qed.

Lemma scaling_demo_run (out : stdout) :
  exists potentials costs,
    computational_scaling_demo out = (Return (potentials, costs), out)
    /\ Forall2 (fun _ v => exists p, v = Fin p /\ 0 < p <= 1)
               (linspace 1.8 4.0 50) potentials
    /\ Forall2 (fun r v => scaling_cost r [] = (Return v, [])
                           /\ exists x, r = Fin x /\ v = Fin ((x / 2.5) ^ 3)
                                        /\ 0.373248 <= (x / 2.5) ^ 3 <= 4.096)
               (linspace 1.8 4.0 50) costs.
Proof.
  unfold computational_scaling_demo.
  destruct (comprehension_values
              (fun r => v <- lennard_jones_default r ;; ret (fabs v))
              (fun _ v => exists p, v = Fin p /\ 0 < p <= 1)
              (linspace 1.8 4.0 50)) with (out := out)
    as [ps [Hps HPs]].
  { intros v Hin o.
    destruct (In_linspace 1.8 4.0 50 v ltac:(lra) Hin) as [x [-> Hx]].
    apply demo_potential, Hx. }
  destruct (comprehension_values scaling_cost
              (fun r v => scaling_cost r [] = (Return v, [])
                          /\ exists x, r = Fin x /\ v = Fin ((x / 2.5) ^ 3)
                                       /\ 0.373248 <= (x / 2.5) ^ 3 <= 4.096)
              (linspace 1.8 4.0 50)) with (out := out)
    as [cs [Hcs HCs]].
  { intros v Hin o.
    destruct (In_linspace 1.8 4.0 50 v ltac:(lra) Hin) as [x [-> Hx]].
    destruct (demo_cost x o Hx) as [c [Hc [-> Hb]]].
    eexists. split; [exact Hc |].
    split; [apply scaling_cost_Fin; right; rewrite Rabs_right by lra; lra |].
    exists x. auto. }
  exists ps, cs. split; [| split; assumption].
  rewrite (bind_return _ _ _ _ _ Hps).
  rewrite (bind_return _ _ _ _ _ Hcs). reflexivity.
Qed.

(** * Properties of [lennard_jones] *)

(** C7. With [epsilon = sigma = 1], [lennard_jones] at [r = sigma = 1]
    returns exactly 0. *)
Theorem lennard_jones_zero_crossing (out : stdout) :
  lennard_jones (Fin 1.0) (Fin 1.0) (Fin 1.0) out = (Return (Fin 0), out).
Proof.
  rewrite lennard_jones_defaults_exact.
  - do 3 f_equal. unfold lj_formula. lra.
  - lra.
  - left. unfold lj_formula. lra.
Qed.

(** C9. [lennard_jones] is deterministic and free of side effects: what it
    returns for given arguments does not depend on the state it is run in,
    so two evaluations agree, and it leaves that state as it found it. *)
Theorem lennard_jones_pure (r epsilon sigma : pyfloat) (out1 out2 : stdout) :
  fst (lennard_jones r epsilon sigma out1)
  = fst (lennard_jones r epsilon sigma out2)
  /\ snd (lennard_jones r epsilon sigma out1) = out1.
Proof.
  destruct (stateless_lennard_jones r epsilon sigma) as [o Ho].
  rewrite !Ho. split; reflexivity.
Qed.

(** * Properties of the report *)

(** C3. For every real percentage [p] the tier is "High" exactly when
    [p > 5.0], otherwise "Significant" exactly when [p > 2.0], otherwise
    "Moderate" exactly when [p > 1.0], otherwise "Negligible"; the bounds
    are strict, so 5.0 is not "High" and 1.0 is "Negligible"; and a larger
    percentage never gets a lower tier. *)
Theorem significance_thresholds :
  (forall p : R,
      (significance (Fin p) = "High"%string <-> 5.0 < p)
      /\ (significance (Fin p) = "Significant"%string <-> 2.0 < p <= 5.0)
      /\ (significance (Fin p) = "Moderate"%string <-> 1.0 < p <= 2.0)
      /\ (significance (Fin p) = "Negligible"%string <-> p <= 1.0))
  /\ significance (Fin 5.0) <> "High"%string
  /\ significance (Fin 5.0) = "Significant"%string
  /\ significance (Fin 1.0) = "Negligible"%string
  /\ (forall p q : R,
         p <= q ->
         (tier_rank (significance (Fin p))
          <= tier_rank (significance (Fin q)))%nat).
Proof.
  split; [| split; [| split; [| split]]].
  - intros p. rewrite significance_Fin.
    destruct (Rlt_dec 5.0 p), (Rlt_dec 2.0 p), (Rlt_dec 1.0 p);
      repeat split; intros; try discriminate; try reflexivity; lra.
  - rewrite significance_Fin.
    destruct (Rlt_dec 5.0 5.0); [lra |].
    destruct (Rlt_dec 2.0 5.0); [discriminate | lra].
  - rewrite significance_Fin.
    destruct (Rlt_dec 5.0 5.0); [lra |].
    destruct (Rlt_dec 2.0 5.0); [reflexivity | lra].
  - rewrite significance_Fin.
    destruct (Rlt_dec 5.0 1.0); [lra |].
    destruct (Rlt_dec 2.0 1.0); [lra |].
    destruct (Rlt_dec 1.0 1.0); [lra | reflexivity].
  - intros p q Hpq. rewrite !significance_Fin.
    destruct (Rlt_dec 5.0 p), (Rlt_dec 2.0 p), (Rlt_dec 1.0 p),
      (Rlt_dec 5.0 q), (Rlt_dec 2.0 q), (Rlt_dec 1.0 q);
      try lra; cbn; repeat constructor.
Qed.

Lemma significance_thresholds_witness :
  (tier_rank (significance (Fin 1.5)) <= tier_rank (significance (Fin 6)))%nat.
Proof.
  apply (proj2 (proj2 (proj2 (proj2 significance_thresholds))) 1.5 6). lra.
Defined.

(** C4 as stated does not hold: the potential the program evaluates at
    the cutoff 3.0 with [epsilon = sigma = 1] is not within 1e-3 of
    -0.0067. *)
Lemma cutoff_3_not_near_0067 :
  ~ (exists v : R,
        lennard_jones (Fin 3.0) (Fin 1.0) (Fin 1.0) [] = (Return (Fin v), [])
        /\ Rabs (v - (- 0.0067)) <= 1e-3).
Proof.
  intros [v [Hv Hb]]. rewrite lennard_jones_tail in Hv by lra.
  injection Hv as Hv. rewrite lj_formula_at_3 in Hv. subst v.
  revert Hb. eval_Rabs.
Qed.

(** C4, amended. With [epsilon = sigma = 1] and the cutoff 3.0 the
    potential is [-2912/531441], about -0.00548: within 1e-3 of -0.0055
    and more than 1e-3 away from -0.0067; the percentage is
    [291200/531441], between 0.54 and 0.55; the tier is "Negligible"; and
    this is the line the report prints for 3.0σ. *)
Theorem cutoff_3_scenario :
  lennard_jones (Fin 3.0) (Fin 1.0) (Fin 1.0) []
  = (Return (Fin (- 2912 / 531441)), [])
  /\ Rabs (- 2912 / 531441 - (- 0.0055)) <= 1e-3
  /\ 1e-3 < Rabs (- 2912 / 531441 - (- 0.0067))
  /\ percentage_of (Fin (- 2912 / 531441)) (Fin 1.0) []
     = (Return (Fin (291200 / 531441)), [])
  /\ 0.54 < 291200 / 531441 < 0.55
  /\ significance (Fin (291200 / 531441)) = "Negligible"%string
  /\ In (TableRow "3.0σ" (Fin (- 2912 / 531441)) (Fin (291200 / 531441))
                  "Negligible")
        (snd (analyze_cutoff_comparison [])).
Proof.
  split; [| split; [| split; [| split; [| split; [| split]]]]].
  - rewrite lennard_jones_tail by lra.
    rewrite lj_formula_at_3. reflexivity.
  - eval_Rabs.
  - eval_Rabs.
  - rewrite <- lj_formula_at_3. rewrite percentage_of_tail by lra.
    rewrite lj_formula_at_3. do 3 f_equal. eval_Rabs.
  - lra.
  - rewrite significance_Fin.
    destruct (Rlt_dec 5.0 _); [lra |]. destruct (Rlt_dec 2.0 _); [lra |].
    destruct (Rlt_dec 1.0 _); [lra | reflexivity].
  - rewrite analyze_run. rewrite <- table_row_3.
    unfold report. cbn [snd app].
    apply in_or_app. right. apply in_or_app. left.
    unfold report_table. right. right. left. reflexivity.
Qed.

(** C8. The report, printed on an empty output, is the heading, then one
    table line per cutoff in the order 2.0σ, 2.5σ, 3.0σ of the cutoff
    list, each with its label, potential, percentage and tier, then under
    a heading one line per cutoff in the same order with the neighbour
    count and the relative cost, then under a heading the three fixed
    recommendation lines, and two fixed closing sentences. *)
Theorem report_structure :
  analyze_cutoff_comparison [] =
  (Return tt,
   [ Text (str_mul "=" 60);
     Text "LENNARD-JONES POTENTIAL CUTOFF ANALYSIS";
     Text (str_mul "=" 60);
     Header ["Cutoff"; "Potential"; "% of ε"; "Significance"]%string;
     Text (str_mul "-" 60);
     TableRow "2.0σ" (Fin (- 63 / 1024)) (Fin (1575 / 256)) "High";
     TableRow "2.5σ" (Fin (- 3983616 / 244140625))
              (Fin (398361600 / 244140625)) "Moderate";
     TableRow "3.0σ" (Fin (- 2912 / 531441)) (Fin (291200 / 531441))
              "Negligible";
     Text "
COMPUTATIONAL IMPACT:";
     Text (str_mul "-" 30);
     ImpactLine "2.0σ" (Fin (4 / 3 * PI * 2.000 ^ 3 * 0.8)) (Fin 1.0);
     ImpactLine "2.5σ" (Fin (4 / 3 * PI * 2.5 ^ 3 * 0.8)) (Fin 1.953125);
     ImpactLine "3.0σ" (Fin (4 / 3 * PI * 3.0 ^ 3 * 0.8)) (Fin 3.375);
     Text "
RECOMMENDATION:";
     Text (str_mul "-" 15);
     Text "• 2.0σ:   Very efficient, potential = -0.0615ε (6.15%)";
     Text "• 2.5σ:   Standard choice, potential = -0.0163ε (1.63%)";
     Text "• 3.0σ:   High accuracy, potential = -0.0067ε (0.67%)";
     Text "
2.0σ cutoff sacrifices some accuracy for maximum speed.";
     Text "2.5σ remains the best balance for most applications." ])
  /\ table_labels (snd (analyze_cutoff_comparison [])) = cutoff_labels
  /\ impact_labels (snd (analyze_cutoff_comparison [])) = cutoff_labels
  /\ cutoff_labels = ["2.0σ"; "2.5σ"; "3.0σ"]%string
  /\ List.length cutoffs = 3%nat.
Proof.
  rewrite analyze_run.
  unfold report, report_table, impact_lines.
  rewrite table_row_2, table_row_2_5, table_row_3.
  rewrite (impact_line_eq 2.000 1.0) by lra.
  rewrite (impact_line_eq 2.5 1.953125) by lra.
  rewrite (impact_line_eq 3.0 3.375) by lra.
  repeat split.
Qed.


(** * Where the binary64 range shows *)

Lemma fpow_raises_overflow_only (a : pyfloat) (n : nat) (e : exn)
  (out out' : stdout) :
  fpow a n out = (Raise e, out') -> e = OverflowError.
Proof.
  unfold fpow. destruct n; [discriminate |].
  destruct a; try discriminate.
  destruct (Rle_dec _ _); [| discriminate].
  unfold raise. intros H. injection H as H _. now symmetry.
Qed.

(** [lennard_jones] returns or raises [OverflowError], and leaves the
    output as it was. *)
Lemma lennard_jones_outcome (r epsilon sigma : pyfloat) (out : stdout) :
  (exists v, lennard_jones r epsilon sigma out = (Return v, out))
  \/ lennard_jones r epsilon sigma out = (Raise OverflowError, out).
Proof.
  destruct (stateless_lennard_jones r epsilon sigma) as [o Ho].
  destruct o as [v | e]; [left; exists v; apply Ho | right].
  rewrite Ho. f_equal. f_equal.
  pose proof (Ho out) as H.
  destruct (flt r (Fin 0.01)) eqn:Hflt.
  - rewrite lennard_jones_below in H by exact Hflt. discriminate.
  - rewrite lennard_jones_above in H by exact Hflt.
    unfold bind in H.
    destruct (fpow (quotient sigma r) 6 out) as [[sr6 | e1] o1] eqn:H1.
    + destruct (fpow sr6 2 o1) as [[sr12 | e2] o2] eqn:H2.
      * discriminate.
      * injection H as H _. subst e2.
        apply (fpow_raises_overflow_only _ _ _ _ _ H2).
    + injection H as H _. subst e1.
      apply (fpow_raises_overflow_only _ _ _ _ _ H1).
Qed.

(** The sixth power of a safe quotient, or its square, too large for a
    double: [**] raises. *)
Lemma lennard_jones_overflow (r epsilon sigma : R) (out : stdout) :
  0.01 <= r -> safe (sigma / r) ->
  overflow_bound <= Rabs ((sigma / r) ^ 6)
  \/ (safe ((sigma / r) ^ 6)
      /\ overflow_bound <= Rabs (((sigma / r) ^ 6) ^ 2)) ->
  lennard_jones (Fin r) (Fin epsilon) (Fin sigma) out
  = (Raise OverflowError, out).
Proof.
  intros Hr Hq H.
  rewrite lennard_jones_above by (apply flt_Fin_false; lra).
  unfold quotient. rewrite round_to_range_safe by exact Hq.
  destruct H as [H6 | [H6 H12]].
  - apply bind_raise, fpow_overflow, H6.
  - rewrite (bind_return _ _ _ _ _ (fpow_safe (sigma / r) 5 out H6)).
    apply bind_raise, fpow_overflow, H12.
Qed.

(** * Properties of [lennard_jones], continued *)




(** C2 as stated does not hold: at [r = 1.0], [epsilon = 1e-300],
    [sigma = 1e30] the square of the sixth power is too large for a
    double and the call raises [OverflowError]. *)
Lemma lennard_jones_raises_at_1e30 :
  lennard_jones (Fin 1.0) (Fin 1e-300) (Fin 1e30) []
  = (Raise OverflowError, []).
Proof.
  apply lennard_jones_overflow.
  - lra.
  - apply safe_between with (lo := 1e30) (hi := 1e30); lra.
  - right. split.
    + apply safe_between with (lo := 1e180) (hi := 1e180); lra.
    + rewrite Rabs_right by lra. eval_bounds. lra.
Qed.

(** C2, amended. For every real distance [r] below 0.01,
    [lennard_jones] returns positive infinity, which is not a finite
    number.  On no input does it raise [ZeroDivisionError]: the only
    exception it can raise is the [OverflowError] of [**].  With
    [sigma = 1.0], the default, it raises on no input at all, the special
    values included, and with both defaults it returns a finite number
    for every real [r] that is not below 0.01: the clamp is its only
    special case. *)
Theorem lennard_jones_clamp :
  (forall (r epsilon sigma : R) (out : stdout),
      r < 0.01 ->
      lennard_jones (Fin r) (Fin epsilon) (Fin sigma) out
      = (Return PosInf, out))
  /\ (forall x : R, PosInf <> Fin x)
  /\ (forall (r epsilon sigma : pyfloat) (out out' : stdout) (e : exn),
         lennard_jones r epsilon sigma out = (Raise e, out') ->
         e = OverflowError /\ flt r (Fin 0.01) = false)
  /\ (forall (r epsilon : pyfloat) (out : stdout),
         exists v, lennard_jones r epsilon (Fin 1.0) out = (Return v, out))
  /\ (forall (r : R) (out : stdout),
         ~ r < 0.01 ->
         exists x,
           lennard_jones (Fin r) (Fin 1.0) (Fin 1.0) out
           = (Return (Fin x), out)).
Proof.
  split; [| split; [| split; [| split]]].
  - intros r epsilon sigma out Hr.
    apply lennard_jones_below, flt_Fin, Hr.
  - discriminate.
  - intros r epsilon sigma out out' e H. split.
    + destruct (lennard_jones_outcome r epsilon sigma out) as [[v Hv] | Hv];
        rewrite Hv in H; [discriminate |].
      injection H as H _. now symmetry.
    + destruct (flt r (Fin 0.01)) eqn:Hflt; [| reflexivity].
      rewrite lennard_jones_below in H by exact Hflt. discriminate.
  - intros r epsilon out. apply lennard_jones_returns_sigma_1.
  - intros r out Hr.
    destruct (lennard_jones_defaults_bounds r out ltac:(lra)) as [v [Hv _]].
    exists v. exact Hv.
Qed.

Lemma lennard_jones_clamp_witness :
  lennard_jones (Fin 0.005) (Fin 1.0) (Fin 1.0) [] = (Return PosInf, [])
  /\ (OverflowError = OverflowError /\ flt (Fin 1.0) (Fin 0.01) = false)
  /\ exists x,
       lennard_jones (Fin 2) (Fin 1.0) (Fin 1.0) [] = (Return (Fin x), []).
Proof.
  split; [| split].
  - apply (proj1 lennard_jones_clamp). lra.
  - apply (proj1 (proj2 (proj2 lennard_jones_clamp))
             (Fin 1.0) (Fin 1e-300) (Fin 1e30) [] []).
    apply lennard_jones_overflow.
    + lra.
    + apply safe_between with (lo := 1e30) (hi := 1e30); lra.
    + right. split.
      * apply safe_between with (lo := 1e180) (hi := 1e180); lra.
      * rewrite Rabs_right by lra. eval_bounds. lra.
  - apply (proj2 (proj2 (proj2 (proj2 lennard_jones_clamp)))). lra.
Defined.

(** C6. With [epsilon = sigma = 1], [lennard_jones] at [r = 2^(1/6)]
    returns [-1], and no distance above zero gives less: below the
    threshold the result is positive infinity, and from the threshold on
    it is a finite value that is at least [-1], the well depth
    [- epsilon]. *)
Theorem lennard_jones_minimum :
  (forall out : stdout,
      lennard_jones (Fin r_min) (Fin 1.0) (Fin 1.0) out
      = (Return (Fin (- 1)), out))
  /\ 0 < r_min /\ r_min ^ 6 = 2
  /\ (forall (r : R) (out : stdout),
         0 < r ->
         exists v,
           lennard_jones (Fin r) (Fin 1.0) (Fin 1.0) out = (Return v, out)
           /\ fge v (Fin (- 1)) = true)
  /\ (forall (r : R) (out : stdout),
         0.01 <= r ->
         exists x,
           lennard_jones (Fin r) (Fin 1.0) (Fin 1.0) out
           = (Return (Fin x), out)
           /\ - 1 <= x).
Proof.
  split; [| split; [| split; [| split]]].
  - intros out. pose proof r_min_ge_1 as H1. pose proof r_min_le_2 as H2.
    pose proof underflow_bound_small as Hu.
    rewrite lennard_jones_defaults_exact.
    + rewrite lj_formula_at_r_min. reflexivity.
    + lra.
    + right. rewrite lj_formula_at_r_min. rewrite Rabs_left1 by lra. lra.
  - exact r_min_pos.
  - exact r_min_pow6.
  - intros r out Hr. destruct (Rlt_dec r 0.01) as [Hlt | Hge].
    + exists PosInf. split; [| reflexivity].
      apply lennard_jones_below, flt_Fin, Hlt.
    + destruct (lennard_jones_defaults_bounds r out ltac:(lra))
        as [v [Hv [Hlow _]]].
      exists (Fin v). split; [exact Hv |].
      simpl. destruct (Rle_dec (- 1) v); [reflexivity | lra].
  - intros r out Hr.
    destruct (lennard_jones_defaults_bounds r out Hr) as [v [Hv [Hlow _]]].
    exists v. split; assumption.
Qed.

Lemma lennard_jones_minimum_witness :
  (exists v,
      lennard_jones (Fin 2) (Fin 1.0) (Fin 1.0) [] = (Return v, [])
      /\ fge v (Fin (- 1)) = true)
  /\ (exists x,
         lennard_jones (Fin 1e60) (Fin 1.0) (Fin 1.0) []
         = (Return (Fin x), [])
         /\ - 1 <= x).
Proof.
  split.
  - apply (proj1 (proj2 (proj2 (proj2 lennard_jones_minimum))) 2 []). lra.
  - apply (proj2 (proj2 (proj2 (proj2 lennard_jones_minimum))) 1e60 []).
    lra.
Defined.




(** * Properties of the report, continued *)

Lemma impact_costs_report :
  impact_costs (snd (analyze_cutoff_comparison []))
  = [Fin ((2.000 / 2.0) ^ 3); Fin ((2.5 / 2.0) ^ 3); Fin ((3.0 / 2.0) ^ 3)].
Proof. rewrite analyze_run. reflexivity. Qed.

(** C5. The relative cost is the cube of the cutoff over the reference
    cutoff, for every cutoff that is zero or of a magnitude between 1e-99
    and 1e99: over 2.0 in the report, whose three impact lines carry the
    costs 1.0, 1.953125 and 3.375 of its cutoffs, and over 2.5 in the
    scaling demonstration, whose cost series is that cost of each of its
    50 samples.  So the cutoff 2.0 costs exactly 1.0 and the cutoff 3.0
    exactly 3.375 relative to 2.0, and the cutoff 2.5 exactly 1.0
    relative to 2.5. *)
Theorem relative_cost_cubic :
  (forall (c : R) (out : stdout),
      c = 0 \/ 1e-99 <= Rabs c <= 1e99 ->
      relative_cost (Fin c) out = (Return (Fin ((c / 2.0) ^ 3)), out))
  /\ (forall (r : R) (out : stdout),
         r = 0 \/ 1e-99 <= Rabs r <= 1e99 ->
         scaling_cost (Fin r) out = (Return (Fin ((r / 2.5) ^ 3)), out))
  /\ (forall out : stdout,
         relative_cost (Fin 2.0) out = (Return (Fin 1.0), out))
  /\ (forall out : stdout,
         relative_cost (Fin 3.0) out = (Return (Fin 3.375), out))
  /\ (forall out : stdout,
         scaling_cost (Fin 2.5) out = (Return (Fin 1.0), out))
  /\ impact_costs (snd (analyze_cutoff_comparison []))
     = [Fin 1.0; Fin 1.953125; Fin 3.375]
  /\ (forall out : stdout,
         exists potentials costs,
           computational_scaling_demo out
           = (Return (potentials, costs), out)
           /\ List.length costs = 50%nat
           /\ Forall2 (fun r cost => scaling_cost r [] = (Return cost, []))
                      (linspace 1.8 4.0 50) costs).
Proof.
  split; [| split; [| split; [| split; [| split; [| split]]]]].
  - apply relative_cost_Fin.
  - apply scaling_cost_Fin.
  - intros out.
    rewrite relative_cost_Fin by (right; rewrite Rabs_right by lra; lra).
    do 3 f_equal. lra.
  - intros out.
    rewrite relative_cost_Fin by (right; rewrite Rabs_right by lra; lra).
    do 3 f_equal. lra.
  - intros out.
    rewrite scaling_cost_Fin by (right; rewrite Rabs_right by lra; lra).
    do 3 f_equal. lra.
  - rewrite impact_costs_report. repeat f_equal; lra.
  - intros out.
    destruct (scaling_demo_run out) as [ps [cs [Hrun [_ Hcs]]]].
    exists ps, cs. split; [exact Hrun |]. split.
    + rewrite (Forall2_length_eq _ _ _ Hcs). unfold linspace.
      rewrite length_map, length_seq. reflexivity.
    + revert Hcs. apply Forall2_impl.
      intros r cost [Hc _]. exact Hc.
Qed.

Lemma relative_cost_cubic_witness :
  relative_cost (Fin 7) [] = (Return (Fin ((7 / 2.0) ^ 3)), [])
  /\ scaling_cost (Fin (- 5)) [] = (Return (Fin ((- 5 / 2.5) ^ 3)), []).
Proof.
  split.
  - apply (proj1 relative_cost_cubic). right.
    rewrite Rabs_right by lra. lra.
  - apply (proj1 (proj2 relative_cost_cubic)). right.
    rewrite Rabs_left by lra. lra.
Defined.

(** * Further properties *)

(** X7. A cutoff below the threshold is reported with an infinite potential,
    an infinite percentage and the tier "High". *)
Theorem report_row_clamped (c e s : R) (label color : string)
  (out : stdout) :
  c < 0.01 -> e <> 0 ->
  report_row (Fin e) (Fin s) (Fin c, label, color) out
  = (Return tt, out ++ [TableRow label PosInf PosInf "High"]).
Proof.
  intros Hc He. unfold report_row.
  rewrite (bind_return _ _ _ _ _
             (lennard_jones_below (Fin c) (Fin e) (Fin s) out
                (proj2 (flt_Fin c 0.01) Hc))).
  rewrite (bind_return _ _ _ _ _ (proj1 (percentage_of_inf e out He))).
  reflexivity.
Qed.

Lemma report_row_clamped_witness :
  report_row (Fin 1.0) (Fin 1.0) (Fin 0.005, "tiny", "red")%string []
  = (Return tt, [TableRow "tiny" PosInf PosInf "High"]).
Proof.
  apply (report_row_clamped 0.005 1.0 1.0 "tiny" "red" []); lra.
Defined.

(** X11. [np.linspace(start, stop, num)] has [num] samples; the first is
    [start] when there is one, the last is [stop] when there are two or
    more; and with [start <= stop] every sample is a finite number
    between [start] and [stop]. *)
Theorem linspace_shape (start stop : R) (num : nat) :
  List.length (linspace start stop num) = num
  /\ ((1 <= num)%nat -> hd_error (linspace start stop num) = Some (Fin start))
  /\ ((2 <= num)%nat -> last (linspace start stop num) NaN = Fin stop)
  /\ (start <= stop ->
      Forall (fun v => exists x, v = Fin x /\ start <= x <= stop)
             (linspace start stop num)).
Proof.
  unfold linspace. split; [| split; [| split]].
  - rewrite length_map, length_seq. reflexivity.
  - intros Hn. destruct num as [|n]; [lia |].
    cbn [seq map hd_error]. do 2 f_equal. simpl INR at 1. ring.
  - intros Hn. destruct num as [|n]; [lia |].
    rewrite seq_S, map_app. cbn [map]. rewrite last_last.
    f_equal. replace (S n - 1)%nat with n by lia. cbn [Nat.add].
    assert (Hpos : 0 < INR n) by (apply lt_0_INR; lia).
    field. lra.
  - intros Hss. apply Forall_map, Forall_forall. intros i Hi.
    apply in_seq in Hi. eexists. split; [reflexivity |].
    apply linspace_sample_bounds; [exact Hss | lia].
Qed.

Lemma linspace_shape_witness :
  hd_error (linspace 0.9 4.0 1000) = Some (Fin 0.9)
  /\ last (linspace 0.9 4.0 1000) NaN = Fin 4.0
  /\ Forall (fun v => exists x, v = Fin x /\ 0.9 <= x <= 4.0)
            (linspace 0.9 4.0 1000).
Proof.
  split; [| split].
  - apply (proj1 (proj2 (linspace_shape 0.9 4.0 1000))). lia.
  - apply (proj1 (proj2 (proj2 (linspace_shape 0.9 4.0 1000)))). lia.
  - apply (proj2 (proj2 (proj2 (linspace_shape 0.9 4.0 1000)))). lra.
Defined.

(** X13. The two curves the analysis plots with [epsilon = sigma = 1.0] are
    evaluated without raising and without printing.  The full curve has
    1000 finite values, none below -1 and none above the value at its
    left end 0.9, which is less than 6.64; the tail curve has 500 finite
    values, all negative and none below the value -63/1024 at its left
    end 2.0. *)
Theorem plotted_curves (out : stdout) :
  (exists vs,
      comprehension (fun r => lennard_jones r (Fin 1.0) (Fin 1.0))
                    (linspace 0.9 4.0 1000) out = (Return vs, out)
      /\ List.length vs = 1000%nat
      /\ Forall (fun v => exists x, v = Fin x /\ - 1 <= x < 6.64) vs)
  /\ (exists vs,
         comprehension (fun r => lennard_jones r (Fin 1.0) (Fin 1.0))
                       (linspace 2.0 4.0 500) out = (Return vs, out)
         /\ List.length vs = 500%nat
         /\ Forall (fun v => exists x, v = Fin x /\ - 63 / 1024 <= x < 0) vs).
Proof.
  pose proof r_min_gt_1 as Hm1. pose proof r_min_le_2 as Hm2. split.
  - destruct (comprehension_values
                (fun r => lennard_jones r (Fin 1.0) (Fin 1.0))
                (fun _ v => exists x, v = Fin x /\ - 1 <= x < 6.64)
                (linspace 0.9 4.0 1000)) with (out := out)
      as [vs [Hvs HF]].
    { intros v Hin o.
      destruct (In_linspace 0.9 4.0 1000 v ltac:(lra) Hin) as [x [-> Hx]].
      eexists. split; [apply lennard_jones_defaults_mid; lra |].
      eexists. split; [reflexivity |].
      pose proof (lj_formula_lower_bound x 1.0 1.0 ltac:(lra)) as Hlow.
      assert (Hup : lj_formula x 1.0 1.0 < 6.64).
      { assert (H09 : lj_formula 0.9 1.0 1.0 < 6.64)
          by (unfold lj_formula; lra).
        destruct (Rle_dec x 1) as [Hx1 | Hx1].
        - destruct (proj1 Hx) as [Hlt | <-]; [| exact H09].
          pose proof (lj_formula_falling 0.9 x 1.0 1.0
                        ltac:(lra) ltac:(lra) ltac:(lra) Hlt ltac:(lra)).
          lra.
        - destruct (lj_formula_sign x 1.0 1.0
                      ltac:(lra) ltac:(lra) ltac:(lra)) as [_ [_ Hneg]].
          specialize (Hneg ltac:(lra)). lra. }
      destruct (flush_cases (lj_formula x 1.0 1.0)) as [-> | [-> _]]; lra. }
    exists vs. split; [exact Hvs |]. split.
    + rewrite (Forall2_length_eq _ _ _ HF). unfold linspace.
      rewrite length_map, length_seq. reflexivity.
    + apply (Forall2_values _ _ _ HF).
  - destruct (comprehension_values
                (fun r => lennard_jones r (Fin 1.0) (Fin 1.0))
                (fun _ v => exists x, v = Fin x /\ - 63 / 1024 <= x < 0)
                (linspace 2.0 4.0 500)) with (out := out)
      as [vs [Hvs HF]].
    { intros v Hin o.
      destruct (In_linspace 2.0 4.0 500 v ltac:(lra) Hin) as [x [-> Hx]].
      eexists. split; [apply lennard_jones_tail; lra |].
      eexists. split; [reflexivity |].
      pose proof (lj_formula_tail_bounds x ltac:(lra)) as Hb.
      split; [| lra].
      assert (H2 : lj_formula 2.0 1.0 1.0 = - 63 / 1024)
        by (unfold lj_formula; lra).
      destruct (proj1 Hx) as [Hlt | <-]; [| lra].
      pose proof (lj_formula_rising 2.0 x 1.0 1.0
                    ltac:(lra) ltac:(lra) ltac:(lra) Hlt).
      lra. }
    exists vs. split; [exact Hvs |]. split.
    + rewrite (Forall2_length_eq _ _ _ HF). unfold linspace.
      rewrite length_map, length_seq. reflexivity.
    + apply (Forall2_values _ _ _ HF).
Qed.

(** X14. The script as a whole returns without raising and prints, after what
    was printed before, its announcement, the 20 lines of the report, a
    rule and the announcement of the scaling demonstration, which itself
    prints nothing: 23 lines in all. *)
Theorem main_output (out : stdout) :
  main out =
  (Return tt,
   out
   ++ [Text "Analyzing Lennard-Jones potential cutoff comparison..."]
   ++ report
   ++ [Text (String (Ascii.ascii_of_nat 10) (str_mul "=" 60));
       Text "Computational scaling demonstration..."])
  /\ List.length (snd (main out)) = (List.length out + 23)%nat.
Proof.
  assert (H : main out =
              (Return tt,
               out
               ++ [Text "Analyzing Lennard-Jones potential cutoff comparison..."]
               ++ report
               ++ [Text (String (Ascii.ascii_of_nat 10) (str_mul "=" 60));
                   Text "Computational scaling demonstration..."])).
  { unfold main. rewrite bind_print.
    rewrite (bind_return _ _ _ _ _ (analyze_run _)).
    rewrite !bind_print.
    match goal with
    | |- bind computational_scaling_demo _ ?o = _ =>
        destruct (scaling_demo_run o) as [ps [cs [Hrun _]]]
    end.
    rewrite (bind_return _ _ _ _ _ Hrun).
    unfold ret. rewrite <- !app_assoc. reflexivity. }
  split; [exact H |]. rewrite H. cbn [snd].
  rewrite !length_app. unfold report. rewrite !length_app.
  reflexivity.
Qed.

Lemma r_min_le_1_5 : r_min <= 1.5.
Proof.
  destruct (Rle_dec r_min 1.5) as [H | H]; [exact H | exfalso].
  pose proof (pow_lt_strict 1.5 r_min 5 ltac:(lra)) as Hp.
  rewrite r_min_pow6 in Hp. lra.
Qed.

Lemma lj_formula_past_1 (c : R) :
  1.01 <= c <= 1e25 -> - 1 <= lj_formula c 1.0 1.0 <= - 1e-152.
Proof.
  intros Hc.
  pose proof (lj_formula_lower_bound c 1.0 1.0 ltac:(lra)) as Hlow.
  split; [lra |].
  rewrite lj_formula_sr6.
  pose proof (inverse_bounds c 1.01 1e25 ltac:(lra) Hc) as Hq.
  pose proof (pow_incr (1.0 / 1e25) (1.0 / c) 6 ltac:(lra)) as Hlo.
  pose proof (pow_incr (1.0 / c) (1.0 / 1.01) 6 ltac:(lra)) as Hhi.
  set (X := (1.0 / c) ^ 6) in *.
  assert (H : X * (X - 1) <= X * (- 0.05))
    by (apply Rmult_le_compat_l; lra).
  lra.
Qed.

Lemma lj_formula_before_1 (c : R) :
  0.01 <= c <= 0.99 -> 0.1 <= lj_formula c 1.0 1.0.
Proof.
  intros Hc. rewrite lj_formula_sr6.
  pose proof (inverse_bounds c 0.01 0.99 ltac:(lra) Hc) as Hq.
  pose proof (pow_incr (1.0 / 0.99) (1.0 / c) 6 ltac:(lra)) as Hlo.
  set (X := (1.0 / c) ^ 6) in *.
  assert (H : 1 * 0.06 <= X * (X - 1))
    by (apply Rmult_le_compat; lra).
  lra.
Qed.

(** X1. With both defaults and a real distance [r] from the threshold
    on, the potential is a finite number, at least -1; it is not
    negative up to [r = 1] and not positive from there on; it is
    strictly positive up to 0.99 and strictly negative from 1.01 to
    1e25. *)
Theorem lennard_jones_sign (r : R) (out : stdout) :
  0.01 <= r ->
  exists v,
    lennard_jones_default (Fin r) out = (Return (Fin v), out)
    /\ - 1 <= v
    /\ (r <= 1 -> 0 <= v)
    /\ (1 <= r -> v <= 0)
    /\ (r <= 0.99 -> 0 < v)
    /\ (1.01 <= r <= 1e25 -> v < 0).
Proof.
  intros Hr. pose proof underflow_bound_small as Hu.
  unfold lennard_jones_default.
  destruct (lennard_jones_defaults_bounds r out Hr)
    as [v [Hv [Hlow [Hle Hge]]]].
  exists v. repeat (split; [assumption |]). split.
  - intros H99.
    pose proof (lj_formula_before_1 r ltac:(lra)) as HF.
    rewrite lennard_jones_defaults_exact in Hv;
      [| lra | right; rewrite Rabs_right by lra; lra].
    injection Hv as <-. lra.
  - intros H101.
    pose proof (lj_formula_past_1 r H101) as HF.
    rewrite lennard_jones_defaults_exact in Hv;
      [| lra | right; rewrite Rabs_left1 by lra; lra].
    injection Hv as <-. lra.
Qed.

Lemma lennard_jones_sign_witness :
  exists v,
    lennard_jones_default (Fin 2) [] = (Return (Fin v), [])
    /\ - 1 <= v /\ v < 0.
Proof.
  destruct (lennard_jones_sign 2 [] ltac:(lra))
    as [v [Hv [Hlow [_ [_ [_ Hneg]]]]]].
  exists v. split; [exact Hv |]. split; [exact Hlow | apply Hneg; lra].
Defined.

(** X2. With both defaults, of two distances between 1.5 and 1e25 the
    larger one never has the lower potential, and both potentials are
    negative and at least -1. *)
Theorem lennard_jones_monotone (r1 r2 : R) (out : stdout) :
  1.5 <= r1 -> r1 <= r2 -> r2 <= 1e25 ->
  exists v1 v2,
    lennard_jones_default (Fin r1) out = (Return (Fin v1), out)
    /\ lennard_jones_default (Fin r2) out = (Return (Fin v2), out)
    /\ - 1 <= v1 /\ v1 <= v2 /\ v2 < 0.
Proof.
  intros H1 H12 H2. pose proof r_min_le_1_5 as Hm.
  exists (lj_formula r1 1.0 1.0), (lj_formula r2 1.0 1.0).
  unfold lennard_jones_default.
  split; [apply lennard_jones_tail; lra |].
  split; [apply lennard_jones_tail; lra |].
  pose proof (lj_formula_tail_bounds r1 ltac:(lra)) as Hb1.
  pose proof (lj_formula_tail_bounds r2 ltac:(lra)) as Hb2.
  split; [lra |]. split; [| lra].
  destruct H12 as [Hlt | <-]; [| lra].
  apply Rlt_le, lj_formula_rising; lra.
Qed.

Lemma lennard_jones_monotone_witness :
  exists v1 v2,
    lennard_jones_default (Fin 2) [] = (Return (Fin v1), [])
    /\ lennard_jones_default (Fin 3) [] = (Return (Fin v2), [])
    /\ - 1 <= v1 /\ v1 <= v2 /\ v2 < 0.
Proof.
  apply (lennard_jones_monotone 2 3 []); lra.
Defined.

Lemma overflow_bound_pos : 0 < overflow_bound.
Proof. pose proof overflow_bound_large. lra. Qed.

Lemma flush_opp (x : R) : flush (- x) = - flush x.
Proof.
  unfold flush. rewrite Rabs_Ropp.
  destruct (Rle_dec (Rabs x) underflow_bound); lra.
Qed.

Lemma saturate_opp (x : R) : saturate (- x) = fneg (saturate x).
Proof.
  pose proof overflow_bound_pos as Hp. unfold saturate.
  destruct (Rle_dec overflow_bound (- x)) as [H1 | H1].
  - destruct (Rle_dec overflow_bound x); [lra |].
    destruct (Rle_dec x (- overflow_bound)); [reflexivity | lra].
  - destruct (Rle_dec (- x) (- overflow_bound)) as [H2 | H2].
    + destruct (Rle_dec overflow_bound x); [reflexivity | lra].
    + destruct (Rle_dec overflow_bound x); [lra |].
      destruct (Rle_dec x (- overflow_bound)); [lra | reflexivity].
Qed.

Lemma round_to_range_opp (x : R) :
  round_to_range (- x) = fneg (round_to_range x).
Proof. unfold round_to_range. rewrite flush_opp. apply saturate_opp. Qed.

Lemma fpow_6_fneg (a : pyfloat) (out : stdout) :
  fpow (fneg a) 6 out = fpow a 6 out.
Proof.
  destruct a as [x | | |]; try reflexivity.
  unfold fneg, fpow. replace ((- x) ^ 6) with (x ^ 6) by ring. reflexivity.
Qed.

(** X4. The sign of [sigma] does not matter: at every real distance and
    for every [epsilon], [lennard_jones] with [- sigma] does exactly what
    it does with [sigma], raising included. *)
Theorem lennard_jones_sigma_sign (r sigma : R) (epsilon : pyfloat)
  (out : stdout) :
  lennard_jones (Fin r) epsilon (Fin (- sigma)) out
  = lennard_jones (Fin r) epsilon (Fin sigma) out.
Proof.
  destruct (flt (Fin r) (Fin 0.01)) eqn:Hflt.
  - rewrite !lennard_jones_below by exact Hflt. reflexivity.
  - rewrite !lennard_jones_above by exact Hflt.
    unfold quotient.
    replace (- sigma / r) with (- (sigma / r)) by (unfold Rdiv; ring).
    rewrite round_to_range_opp. unfold bind at 1 3.
    rewrite fpow_6_fneg. reflexivity.
Qed.

Lemma flush_zero : flush 0 = 0.
Proof. apply flush_keeps. left. reflexivity. Qed.

Lemma fmul_NaN_r (a : pyfloat) : fmul a NaN = NaN.
Proof. destruct a; reflexivity. Qed.

(** X5. On the special values [lennard_jones] does not raise.  An
    infinite distance gives 0 for a finite [sigma] and an [epsilon] of a
    magnitude up to 1e300; a [nan] distance passes the threshold test
    and gives [nan]; minus infinity is below the threshold and gives
    positive infinity; an infinite [sigma] at a real distance from the
    threshold on gives [nan], not infinity; an infinite [epsilon] with
    [sigma = 1.0] gives plus infinity before [r = 1], [nan] at [r = 1]
    and minus infinity after it, up to 1e50. *)
Theorem lennard_jones_special_values :
  (forall (epsilon sigma : R) (out : stdout),
      Rabs epsilon <= 1e300 ->
      lennard_jones PosInf (Fin epsilon) (Fin sigma) out
      = (Return (Fin 0), out))
  /\ (forall (epsilon sigma : pyfloat) (out : stdout),
         lennard_jones NaN epsilon sigma out = (Return NaN, out))
  /\ (forall (epsilon sigma : pyfloat) (out : stdout),
         lennard_jones NegInf epsilon sigma out = (Return PosInf, out))
  /\ (forall (r : R) (epsilon : pyfloat) (out : stdout),
         0.01 <= r ->
         lennard_jones (Fin r) epsilon PosInf out = (Return NaN, out))
  /\ (forall (r : R) (out : stdout),
         0.01 <= r <= 1e50 ->
         lennard_jones (Fin r) PosInf (Fin 1.0) out
         = (Return (if Rlt_dec r 1 then PosInf
                    else if Rlt_dec 1 r then NegInf
                    else NaN), out)).
Proof.
  pose proof overflow_bound_large as Ho.
  pose proof underflow_bound_small as Hu.
  split; [| split; [| split; [| split]]].
  - intros epsilon sigma out He.
    rewrite lennard_jones_above by reflexivity.
    unfold quotient.
    rewrite (bind_return _ _ _ _ _
               (fpow_finite 0 5 out ltac:(
                  replace (0 ^ 6) with 0 by ring; rewrite Rabs_R0; lra))).
    replace (0 ^ 6) with 0 by ring. rewrite flush_zero.
    rewrite (bind_return _ _ _ _ _
               (fpow_finite 0 1 out ltac:(
                  replace (0 ^ 2) with 0 by ring; rewrite Rabs_R0; lra))).
    replace (0 ^ 2) with 0 by ring. rewrite flush_zero.
    unfold ret. do 2 f_equal.
    rewrite fmul_finite
      by (rewrite Rabs_mult, (Rabs_right 4) by lra; lra).
    rewrite fsub_finite
      by (replace (0 - 0) with 0 by ring; rewrite Rabs_R0; lra).
    rewrite fmul_finite;
      replace (flush (4 * epsilon) * (0 - 0)) with 0 by ring.
    + rewrite flush_zero. reflexivity.
    + rewrite Rabs_R0. lra.
  - intros epsilon sigma out.
    rewrite lennard_jones_above by reflexivity.
    assert (Hq : quotient sigma NaN = NaN) by (destruct sigma; reflexivity).
    rewrite Hq. unfold bind, fpow, ret. cbn [fsub].
    rewrite fmul_NaN_r. reflexivity.
  - intros epsilon sigma out. apply lennard_jones_below. reflexivity.
  - intros r epsilon out Hr.
    rewrite lennard_jones_above by (apply flt_Fin_false; lra).
    assert (Hq : quotient PosInf (Fin r) = PosInf).
    { simpl. unfold inf_times. destruct (Rlt_dec 0 r); [reflexivity | lra]. }
    rewrite Hq. unfold bind, fpow, ret. cbn [fsub].
    rewrite fmul_NaN_r. reflexivity.
  - intros r out Hr.
    destruct (lennard_jones_sigma_1 r PosInf out ltac:(lra))
      as [X [Y [Hrun [HX [HY HXb]]]]].
    rewrite Hrun. do 2 f_equal.
    assert (H4 : fmul (Fin 4) PosInf = PosInf).
    { simpl. unfold inf_times. destruct (Rlt_dec 0 4); [reflexivity | lra]. }
    rewrite H4.
    change (fmul PosInf (Fin (Y - X))) with (inf_times (Y - X) PosInf).
    pose proof (inverse_bounds r 0.01 1e50 ltac:(lra) Hr) as Hq.
    pose proof (pow_incr (1.0 / 1e50) (1.0 / r) 6 ltac:(lra)) as Hq6.
    destruct HX as [HX | [_ HX]]; [| lra].
    unfold inf_times.
    destruct (Rlt_dec r 1) as [Hlt | Hnlt].
    + assert (Hq1 : 1 < 1.0 / r).
      { apply Rmult_lt_reg_r with (r := r); [lra |].
        unfold Rdiv. rewrite Rmult_assoc, Rinv_l by lra. lra. }
      pose proof (pow_lt_strict 1 (1.0 / r) 5 ltac:(lra)) as HX1.
      rewrite pow1 in HX1. rewrite <- HX in HX1.
      pose proof (pow_lt_strict 1 X 1 ltac:(lra)) as HX2.
      rewrite pow1 in HX2.
      destruct HY as [HY | [_ HY]]; [| lra].
      assert (0 < Y - X) by (rewrite HY; nra).
      destruct (Rlt_dec 0 (Y - X)); [reflexivity | lra].
    + destruct (Rlt_dec 1 r) as [Hgt | Hngt].
      * assert (Hq1 : 1.0 / r < 1).
        { apply Rmult_lt_reg_r with (r := r); [lra |].
          unfold Rdiv. rewrite Rmult_assoc, Rinv_l by lra. lra. }
        pose proof (pow_lt_strict (1.0 / r) 1 5 ltac:(lra)) as HX1.
        rewrite pow1 in HX1. rewrite <- HX in HX1.
        assert (Y - X < 0) by (destruct HY as [-> | [-> _]]; nra).
        destruct (Rlt_dec 0 (Y - X)); [lra |].
        destruct (Rlt_dec (Y - X) 0); [reflexivity | lra].
      * assert (Hr1 : r = 1) by lra. subst r.
        assert (HX1 : X = 1) by (rewrite HX; lra).
        assert (HY1 : Y = 1).
        { destruct HY as [-> | [_ HY]]; [rewrite HX1; ring |].
          rewrite HX1 in HY. lra. }
        assert (Hd : Y - X = 0) by lra.
        destruct (Rlt_dec 0 (Y - X)); [lra |].
        destruct (Rlt_dec (Y - X) 0); [lra | reflexivity].
Qed.

Lemma lennard_jones_special_values_witness :
  lennard_jones PosInf (Fin 1.0) (Fin 1.0) [] = (Return (Fin 0), [])
  /\ lennard_jones (Fin 2) (Fin 1.0) PosInf [] = (Return NaN, [])
  /\ lennard_jones (Fin 2) PosInf (Fin 1.0) []
     = (Return (if Rlt_dec 2 1 then PosInf
                else if Rlt_dec 1 2 then NegInf else NaN), []).
Proof.
  split; [| split].
  - apply (proj1 lennard_jones_special_values).
    rewrite Rabs_right by lra. lra.
  - apply (proj1 (proj2 (proj2 (proj2 lennard_jones_special_values)))). lra.
  - apply (proj2 (proj2 (proj2 (proj2 lennard_jones_special_values)))); lra.
Defined.

(** X8. With [epsilon = sigma = 1.0], of two cutoffs between 1.5 and
    1e25 the larger one is reported with a percentage that is not larger,
    both percentages are above 0 and at most 100, and the tier of the
    larger cutoff is not higher. *)
Theorem tier_falls_with_cutoff (c1 c2 : R) (l1 l2 col1 col2 : string)
  (out : stdout) :
  1.5 <= c1 -> c1 <= c2 -> c2 <= 1e25 ->
  exists v1 p1 v2 p2,
    report_row (Fin 1.0) (Fin 1.0) (Fin c1, l1, col1) out
    = (Return tt,
       out ++ [TableRow l1 (Fin v1) (Fin p1) (significance (Fin p1))])
    /\ report_row (Fin 1.0) (Fin 1.0) (Fin c2, l2, col2) out
       = (Return tt,
          out ++ [TableRow l2 (Fin v2) (Fin p2) (significance (Fin p2))])
    /\ 0 < p2 <= p1 /\ p1 <= 100
    /\ (tier_rank (significance (Fin p2))
        <= tier_rank (significance (Fin p1)))%nat.
Proof.
  intros H1 H12 H2. pose proof r_min_le_1_5 as Hm.
  exists (lj_formula c1 1.0 1.0), (Rabs (lj_formula c1 1.0 1.0 / 1.0) * 100),
    (lj_formula c2 1.0 1.0), (Rabs (lj_formula c2 1.0 1.0 / 1.0) * 100).
  split; [apply report_row_run; lra |].
  split; [apply report_row_run; lra |].
  pose proof (lj_formula_tail_bounds c1 ltac:(lra)) as Hb1.
  pose proof (lj_formula_tail_bounds c2 ltac:(lra)) as Hb2.
  assert (Hle : lj_formula c1 1.0 1.0 <= lj_formula c2 1.0 1.0).
  { destruct H12 as [Hlt | <-]; [| lra].
    apply Rlt_le, lj_formula_rising; lra. }
  assert (Hp : 0 < Rabs (lj_formula c2 1.0 1.0 / 1.0) * 100
               <= Rabs (lj_formula c1 1.0 1.0 / 1.0) * 100
               /\ Rabs (lj_formula c1 1.0 1.0 / 1.0) * 100 <= 100).
  { rewrite !Rabs_left1 by lra. lra. }
  destruct Hp as [Hp Hp100].
  split; [exact Hp |]. split; [exact Hp100 |].
  apply tier_rank_monotone. lra.
Qed.

Lemma tier_falls_with_cutoff_witness :
  exists v1 p1 v2 p2,
    report_row (Fin 1.0) (Fin 1.0) (Fin 2, "a", "red")%string []
    = (Return tt, [] ++ [TableRow "a" (Fin v1) (Fin p1) (significance (Fin p1))])
    /\ report_row (Fin 1.0) (Fin 1.0) (Fin 3, "b", "blue")%string []
       = (Return tt,
          [] ++ [TableRow "b" (Fin v2) (Fin p2) (significance (Fin p2))])
    /\ 0 < p2 <= p1 /\ p1 <= 100
    /\ (tier_rank (significance (Fin p2))
        <= tier_rank (significance (Fin p1)))%nat.
Proof.
  apply (tier_falls_with_cutoff 2 3 "a" "b" "red" "blue" []); lra.
Defined.

(** X12. The scaling demonstration returns without raising and prints
    nothing; its two series have 50 entries each; every plotted
    potential magnitude is finite, strictly positive and at most 1, as
    the logarithmic axis needs; every relative cost is finite, between
    0.37 and 4.1. *)
Theorem scaling_demo_series (out : stdout) :
  exists potentials costs,
    computational_scaling_demo out = (Return (potentials, costs), out)
    /\ List.length potentials = 50%nat
    /\ List.length costs = 50%nat
    /\ Forall (fun v => exists x, v = Fin x /\ 0 < x <= 1) potentials
    /\ Forall (fun v => exists x, v = Fin x /\ 0.37 <= x <= 4.1) costs.
Proof.
  destruct (scaling_demo_run out) as [ps [cs [Hrun [Hps Hcs]]]].
  exists ps, cs. split; [exact Hrun |].
  assert (Hlen : List.length (linspace 1.8 4.0 50) = 50%nat).
  { unfold linspace. rewrite length_map, length_seq. reflexivity. }
  split; [rewrite (Forall2_length_eq _ _ _ Hps); exact Hlen |].
  split; [rewrite (Forall2_length_eq _ _ _ Hcs); exact Hlen |].
  split.
  - apply (Forall2_values _ _ _ Hps).
  - apply (Forall2_values (fun v => exists x, v = Fin x /\ 0.37 <= x <= 4.1)
             (linspace 1.8 4.0 50)).
    revert Hcs. apply Forall2_impl.
    intros r v [_ [x [_ [-> Hb]]]]. eexists. split; [reflexivity | lra].
Qed.
